(** * ZRR and QPV checker: a model of [streamlit_app.py]

    The development follows the four data functions of the application:
    [load_qpv_polygones], [load_zrr_data], [calcul_proximite_qpv] and
    [check_zrr_statut].

    Modelling choices.
    - Python values that reach the functions are strings, integers, floats
      and the missing-value marker of pandas ([Value]); a float is known by
      the text [str] makes of it; [None] is [option]'s [None].
    - A Python [set] of strings is a [gset string].
    - A pandas table is the list of its rows, a row being a record of the
      columns the program reads. A layer of districts is the empty
      [gpd.GeoDataFrame()] or rows with their CRS: [load_qpv_polygones] lets
      no file without a CRS through.
    - Distances are Python floats in the program; here they are rationals
      ([Q]), so that dividing by 1000 and comparing with 1 are exact.
    - shapely's predicates ([contains], [distance]) and the reprojections of
      pyproj are operations of a [Planar] structure, the interface under which
      the program uses them.
    - A raised exception is the [Raise] outcome of [Result]. *)

From Stdlib Require Import Ascii String QArith Qminmax Lqa DecimalString.
From stdpp Require Import base list strings gmap.

Local Open Scope string_scope.
Local Open Scope list_scope.

(** ** Python values and strings *)

(** [VFloat repr] is the float, other than NaN, that [str] prints as
    [repr]: [VFloat "1234.0"] is [1234.0]. [VNaN] is the missing value. *)
Inductive Value :=
| VStr (s : string)
| VInt (n : Z)
| VFloat (repr : string)
| VNaN.

(** [bool(v)]: the empty string and the zeros are false. *)
Definition truthy (v : Value) : bool :=
  match v with
  | VStr s => negb (String.eqb s "")
  | VInt n => negb (Z.eqb n 0)
  | VFloat repr => negb (String.eqb repr "0.0" || String.eqb repr "-0.0")
  | VNaN => true
  end.

(** [str(v)]. *)
Definition py_str (v : Value) : string :=
  match v with
  | VStr s => s
  | VInt n => NilZero.string_of_int (Z.to_int n)
  | VFloat repr => repr
  | VNaN => "nan"
  end.

Fixpoint zeros (n : nat) : string :=
  match n with
  | O => ""
  | S k => String "0"%char (zeros k)
  end.

Definition is_sign (c : ascii) : bool :=
  Ascii.eqb c "+"%char || Ascii.eqb c "-"%char.

(** [s.zfill(width)]: zeros are added on the left up to [width] characters,
    after a leading sign when there is one. *)
Definition zfill (width : nat) (s : string) : string :=
  match width - String.length s with
  | O => s
  | fill =>
      match s with
      | String c rest =>
          if is_sign c then String c (zeros fill +:+ rest)
          else zeros fill +:+ s
      | EmptyString => zeros fill
      end
  end.

(** [s.startswith(("C", "P"))]. *)
Definition startswith_C_or_P (s : string) : bool :=
  String.prefix "C" s || String.prefix "P" s.

(** Every character of [s] passes the test [p]. *)
Fixpoint every (p : ascii -> bool) (s : string) : bool :=
  match s with
  | EmptyString => true
  | String c rest => p c && every p rest
  end.

(** [df.empty] for a table held as the list of its rows. *)
Definition is_nil {A : Type} (l : list A) : bool :=
  match l with
  | [] => true
  | _ :: _ => false
  end.

(** ** Outcomes *)

(** [StrAccessorError] is the [AttributeError] of [.str] on a column that
    holds no text. *)
Inductive Exn :=
| ValueError (msg : string)
| ParserError
| EmptyDataError
| KeyError (key : string)
| StrAccessorError.

Inductive Result (A : Type) :=
| Ok (a : A)
| Raise (e : Exn).
Arguments Ok {A} a.
Arguments Raise {A} e.

(** ** The ZRR table *)

(** A row of the ZRR listing, by the three columns the program reads.
    [LIBGEO] is read with [.get], which gives [None] when there is no such
    column. *)
Record ZrrRow := {
  CODGEO : Value;
  ZRR_SIMP : Value;
  LIBGEO : option Value
}.

(** What pandas says of the column [ZRR_SIMP] of a table it has read: there
    is no such column, or it is one [.str] refuses (a column of numbers, or
    of missing values only), or a column of text (strings, with missing
    values left where a cell is empty). *)
Inductive ZoneColumn :=
| ZoneAbsent
| ZoneNotText
| ZoneText.

(** A table as [pd.read_csv] hands it over: its rows, whether it has a
    column [CODGEO], and what its column [ZRR_SIMP] is. The cells of a column
    that is not there are not read. *)
Record CsvTable := {
  has_CODGEO : bool;
  zone_column : ZoneColumn;
  table_rows : list ZrrRow
}.

(** The literals of [read_csv(path, header=5)] and [zfill(5)]. *)
Definition ZRR_HEADER : nat := 5.
Definition CODE_WIDTH : nat := 5.

(** [df["CODGEO"].astype(str).str.zfill(5)], row by row: a missing value
    stays missing, any other cell becomes the text [str] makes of it, filled
    with zeros. *)
Definition normalize_codgeo (r : ZrrRow) : ZrrRow :=
  {| CODGEO := match CODGEO r with
               | VNaN => VNaN
               | v => VStr (zfill CODE_WIDTH (py_str v))
               end;
     ZRR_SIMP := ZRR_SIMP r;
     LIBGEO := LIBGEO r |}.

(** [.str.startswith(("C", "P"), na=False)] on one cell: a cell that is not
    a string gives a missing answer, which [na=False] turns into [False]. *)
Definition zrr_flagged (r : ZrrRow) : bool :=
  match ZRR_SIMP r with
  | VStr s => startswith_C_or_P s
  | _ => false
  end.

(** The strings of the column [CODGEO] of the selected rows, [.tolist()].
    A missing code is a member of the Python set that no string equals: the
    set is held by its strings, the members a look-up of a string can
    find. *)
Definition codgeo_list (df : list ZrrRow) : list string :=
  omap (fun r => match CODGEO r with
                 | VStr s => Some s
                 | _ => None
                 end) df.

Section ReadCsv.

(** The text of a file is the list of its lines, blank lines left out as
    pandas leaves them out before it counts. pandas' tokeniser and column
    typing are not modelled: [parse_table header lines] is the table pandas
    builds from a header line and the lines below it. *)
Variable parse_table : string -> list string -> CsvTable.

(** [pd.read_csv(path, header=h)]: the lines before line [h] are dropped,
    line [h] names the columns, the next ones are the rows. A file with no
    line is refused, and so is a file with no line [h]. *)
Definition read_csv (header : nat) (lines : list string) : Result CsvTable :=
  match lines with
  | [] => Raise EmptyDataError
  | _ :: _ =>
      match drop header lines with
      | [] => Raise ParserError
      | h :: data => Ok (parse_table h data)
      end
  end.

(** [load_zrr_data]; [file] is [None] when [os.path.exists(path)] is
    false. [df_zrr["CODGEO"]] and [df_zrr["ZRR_SIMP"]] raise [KeyError]
    when the table has no such column, [.str] raises when the column
    [ZRR_SIMP] holds no text. *)
Definition load_zrr_data (file : option (list string))
  : Result (list ZrrRow * gset string) :=
  match file with
  | None => Ok ([], ∅)
  | Some lines =>
      match read_csv ZRR_HEADER lines with
      | Raise e => Raise e
      | Ok table =>
          if negb (has_CODGEO table) then Raise (KeyError "CODGEO")
          else
            let df_zrr := map normalize_codgeo (table_rows table) in
            match zone_column table with
            | ZoneAbsent => Raise (KeyError "ZRR_SIMP")
            | ZoneNotText => Raise StrAccessorError
            | ZoneText =>
                let communes_zrr : gset string :=
                  list_to_set (codgeo_list (List.filter zrr_flagged df_zrr)) in
                Ok (df_zrr, communes_zrr)
            end
      end
  end.

End ReadCsv.

(** [df["CODGEO"] == code], on one row. *)
Definition codgeo_is (code : string) (r : ZrrRow) : bool :=
  match CODGEO r with
  | VStr s => String.eqb s code
  | _ => false
  end.

(** [check_zrr_statut]. *)
Definition check_zrr_statut (code_commune : option Value)
    (df_zrr : list ZrrRow) (communes_zrr : gset string)
  : option bool * option Value :=
  match code_commune with
  | None => (None, None)
  | Some v =>
      if negb (truthy v) then (None, None)
      else
        let code := zfill CODE_WIDTH (py_str v) in
        let is_zrr := bool_decide (code ∈ communes_zrr) in
        let zrr_label :=
          if is_zrr then
            match List.filter (codgeo_is code) df_zrr with
            | [] => None
            | r :: _ => LIBGEO r
            end
          else None in
        (Some is_zrr, zrr_label)
  end.

(** ** Coordinate reference systems and planar geometry *)

(** A CRS is known by its EPSG code, or has none ([to_epsg()] is [None]). *)
Inductive CRS :=
| EPSG (code : Z)
| CustomCRS (definition : string).

Definition to_epsg (c : CRS) : option Z :=
  match c with
  | EPSG n => Some n
  | CustomCRS _ => None
  end.

Definition WGS84 : CRS := EPSG 4326.
Definition LAMBERT93 : Z := 2154.

(** What the program asks of shapely and pyproj. [covers] is not called by
    the program: it says which points are in a polygon, boundary included,
    and only serves to state where a point lies. *)
Class Planar := {
  Geometry : Type;
  Point : Type;
  contains : Geometry -> Point -> bool;
  covers : Geometry -> Point -> bool;
  distance : Geometry -> Point -> Q;
  point_to_crs : CRS -> CRS -> Point -> Point;
  geometry_to_crs : CRS -> CRS -> Geometry -> Geometry
}.

(** The facts of plane geometry the two predicates obey: a distance is not
    negative, it is zero exactly on the polygon (boundary included), and the
    points a polygon contains are points of it. *)
Record planar_laws `{Planar} : Prop := {
  distance_nonneg : forall g p, (0 <= distance g p)%Q;
  distance_zero : forall g p, (distance g p == 0)%Q <-> covers g p = true;
  contains_covers : forall g p, contains g p = true -> covers g p = true
}.

(** [Series.min()] of a series whose first value is [d0]. *)
Definition series_min (d0 : Q) (ds : list Q) : Q := foldl Qmin d0 ds.

(** [Series.idxmin()]: the position of the first least value; [best] holds
    the least value [m] of the positions before [i]. *)
Fixpoint idxmin_from (i best : nat) (m : Q) (ds : list Q) : nat :=
  match ds with
  | [] => best
  | d :: ds' =>
      match (m ?= d)%Q with
      | Gt => idxmin_from (S i) i d ds'
      | _ => idxmin_from (S i) best m ds'
      end
  end.

Definition idxmin (d0 : Q) (ds : list Q) : nat := idxmin_from 1 0 d0 ds.

Section Qpv.

Context `{Planar}.

(** A row of the QPV layer: its geometry, and the three attributes, each
    read with [.get] ([None] when the column is not there). *)
Record QpvRow := {
  geometry : Geometry;
  code_qp : option Value;
  lib_qp : option Value;
  lib_com : option Value
}.

(** What [gpd.read_file] hands over: the rows and the CRS the file
    declares, if any. *)
Record GeoFile := {
  file_crs : option CRS;
  file_rows : list QpvRow
}.

(** The frames the program holds: [gpd.GeoDataFrame()], or rows with their
    CRS ([load_qpv_polygones] lets no file without a CRS through). *)
Inductive GeoDataFrame :=
| NoFrame
| Frame (crs : CRS) (rows : list QpvRow).

Definition gdf_rows (gdf : GeoDataFrame) : list QpvRow :=
  match gdf with
  | NoFrame => []
  | Frame _ rows => rows
  end.

(** [gdf.empty]. *)
Definition gdf_empty (gdf : GeoDataFrame) : bool :=
  is_nil (gdf_rows gdf).

Definition row_to_crs (src dst : CRS) (r : QpvRow) : QpvRow :=
  {| geometry := geometry_to_crs src dst (geometry r);
     code_qp := code_qp r;
     lib_qp := lib_qp r;
     lib_com := lib_com r |}.

(** [load_qpv_polygones]; [file] is [None] when [os.path.exists(path)] is
    false. *)
Definition load_qpv_polygones (file : option GeoFile) : Result GeoDataFrame :=
  match file with
  | None => Ok NoFrame
  | Some gdf =>
      match file_crs gdf with
      | None => Raise (ValueError "Le fichier QPV n'a pas de CRS.")
      | Some c =>
          if bool_decide (to_epsg c ≠ Some LAMBERT93)
          then Ok (Frame (EPSG LAMBERT93)
                     (map (row_to_crs c (EPSG LAMBERT93)) (file_rows gdf)))
          else Ok (Frame c (file_rows gdf))
      end
  end.

(** An entry of [qpv_dans_lesquels]. *)
Record QpvIdent := {
  id_code_qp : option Value;
  id_lib_qp : option Value;
  id_commune_qp : option Value
}.

(** The dictionary [qpv_plus_proche]. *)
Record QpvNearest := {
  near_code_qp : option Value;
  near_lib_qp : option Value;
  near_commune_qp : option Value;
  near_distance_km : Q
}.

(** The dictionary [calcul_proximite_qpv] returns. The page tests
    [qpv_plus_proche] before it reads it, hence the [option]. *)
Record ProximityResult := {
  est_dans_qpv : bool;
  distance_km : Q;
  a_moins_1km_qpv : bool;
  qpv_dans_lesquels : list QpvIdent;
  qpv_plus_proche : option QpvNearest
}.

Definition ident_of (row : QpvRow) : QpvIdent :=
  {| id_code_qp := code_qp row;
     id_lib_qp := lib_qp row;
     id_commune_qp := lib_com row |}.

Definition is_inside (pt : Point) (row : QpvRow) : bool :=
  contains (geometry row) pt.

Definition distance_to (pt : Point) (row : QpvRow) : Q :=
  distance (geometry row) pt.

(** [calcul_proximite_qpv]. *)
Definition calcul_proximite_qpv (pt_wgs : option Point) (qpv_gdf : GeoDataFrame)
  : option ProximityResult :=
  match pt_wgs, qpv_gdf with
  | Some pt, Frame crs (row0 :: others) =>
      let rows := row0 :: others in
      let pt_proj := point_to_crs WGS84 crs pt in
      let qpv_inside := List.filter (is_inside pt_proj) rows in
      let est_dans_qpv := negb (is_nil qpv_inside) in
      let qpv_dans_lesquels :=
        if est_dans_qpv then map ident_of qpv_inside else [] in
      let min_dist_m :=
        series_min (distance_to pt_proj row0) (map (distance_to pt_proj) others) in
      let distance_km := (min_dist_m / 1000)%Q in
      let a_moins_1km_qpv := Qle_bool distance_km 1 in
      let idx_min :=
        idxmin (distance_to pt_proj row0) (map (distance_to pt_proj) others) in
      let row_min := nth idx_min rows row0 in
      Some {| est_dans_qpv := est_dans_qpv;
              distance_km := distance_km;
              a_moins_1km_qpv := a_moins_1km_qpv;
              qpv_dans_lesquels := qpv_dans_lesquels;
              qpv_plus_proche :=
                Some {| near_code_qp := code_qp row_min;
                        near_lib_qp := lib_qp row_min;
                        near_commune_qp := lib_com row_min;
                        near_distance_km := distance_km |} |}
  | _, _ => None
  end.

End Qpv.

(** ** A plane of horizontal strips

    An instance of [Planar] whose distances are rational: a geometry is the
    strip of the points [(x, y)] with [lo <= y <= hi], its interior the
    points with [lo < y < hi]. A CRS is a unit of length, the metre for an
    EPSG code and the kilometre otherwise; changing CRS rescales. *)
Module Strips.

Local Open Scope Q_scope.

Record Strip := { lo : Q; hi : Q }.

Definition Qltb (x y : Q) : bool := negb (Qle_bool y x).

Definition strip_contains (s : Strip) (p : Q * Q) : bool :=
  Qltb (lo s) (snd p) && Qltb (snd p) (hi s).

Definition strip_covers (s : Strip) (p : Q * Q) : bool :=
  Qle_bool (lo s) (snd p) && Qle_bool (snd p) (hi s).

Definition strip_distance (s : Strip) (p : Q * Q) : Q :=
  if Qltb (snd p) (lo s) then lo s - snd p
  else if Qltb (hi s) (snd p) then snd p - hi s
  else 0.

Definition metres (c : CRS) : Q :=
  match c with
  | EPSG _ => 1
  | CustomCRS _ => 1000
  end.

Definition rescale (src dst : CRS) (x : Q) : Q :=
  Qred (x * metres src / metres dst).

Definition strip_point_to_crs (src dst : CRS) (p : Q * Q) : Q * Q :=
  (rescale src dst (fst p), rescale src dst (snd p)).

Definition strip_to_crs (src dst : CRS) (s : Strip) : Strip :=
  {| lo := rescale src dst (lo s); hi := rescale src dst (hi s) |}.

#[export] Instance strips : Planar := {|
  Geometry := Strip;
  Point := Q * Q;
  contains := strip_contains;
  covers := strip_covers;
  distance := strip_distance;
  point_to_crs := strip_point_to_crs;
  geometry_to_crs := strip_to_crs
|}.

(** The strip [0 <= y <= 10], named QP1. *)
Definition qp1 : QpvRow :=
  {| geometry := ({| lo := 0; hi := 10 |} : Geometry);
     code_qp := Some (VStr "QP1");
     lib_qp := Some (VStr "Quartier Un");
     lib_com := Some (VStr "Commune A") |}.

(** The strip [5000 <= y <= 6000], named QP2. *)
Definition qp2 : QpvRow :=
  {| geometry := ({| lo := 5000; hi := 6000 |} : Geometry);
     code_qp := Some (VStr "QP2");
     lib_qp := Some (VStr "Quartier Deux");
     lib_com := Some (VStr "Commune B") |}.

Definition layer : GeoDataFrame := Frame (EPSG LAMBERT93) [qp1; qp2].

Definition pt_inside : Point := ((5, 5) : Q * Q).
Definition pt_at_1km : Point := ((0, 1010) : Q * Q).
Definition pt_edge : Point := ((5, 10) : Q * Q).

End Strips.

(** ** What the statements below speak of *)


(** [s] starts with the marker C or the marker P. *)
Definition marked (s : string) : Prop :=
  exists rest, s = String "C"%char rest \/ s = String "P"%char rest.




(** [s] has no leading sign. *)
Definition unsigned (s : string) : Prop :=
  match s with
  | String c _ => is_sign c = false
  | EmptyString => True
  end.

(** [m] is the least of the distances from [pt] to the rows: the distance
    to one of them, and no more than the distance to any. *)
Definition least_distance `{Planar} (pt : Point) (rows : list QpvRow) (m : Q) : Prop :=
  (exists row, In row rows /\ distance (geometry row) pt = m) /\
  (forall row, In row rows -> (m <= distance (geometry row) pt)%Q).

(** The entry [e] of [qpv_dans_lesquels] names the row [row]: it has its
    code, its name and its commune. *)
Definition names_row `{Planar} (row : QpvRow) (e : QpvIdent) : Prop :=
  id_code_qp e = code_qp row /\
  id_lib_qp e = lib_qp row /\
  id_commune_qp e = lib_com row.

(** The rows that contain the point, in the order of the layer. *)
Definition containing `{Planar} (pt : Point) (rows : list QpvRow) : list QpvRow :=
  List.filter (fun row => contains (geometry row) pt) rows.

(** The nearest district is there with the distance of the result, and the
    containment flag says whether the list of districts has an entry. *)
Definition consistent (r : ProximityResult) : Prop :=
  (exists n, qpv_plus_proche r = Some n /\ near_distance_km n = distance_km r) /\
  (est_dans_qpv r = true <-> qpv_dans_lesquels r <> []).

(** A layer file for the examples, in kilometres, and one with no CRS. *)
Definition km_file : @GeoFile Strips.strips :=
  {| file_crs := Some (CustomCRS "local grid, km");
     file_rows :=
       [ {| geometry := ({| Strips.lo := 0; Strips.hi := 1 # 100 |} : @Geometry Strips.strips);
            code_qp := Some (VStr "QP1");
            lib_qp := Some (VStr "Quartier Un");
            lib_com := Some (VStr "Commune A") |} ] |}.

Definition naive_file : @GeoFile Strips.strips :=
  {| file_crs := None; file_rows := file_rows km_file |}.

(** A table for the examples: one classified commune, one that is not, one
    with no classification. *)
Definition zrr_table : list ZrrRow :=
  [ {| CODGEO := VStr "01234"; ZRR_SIMP := VStr "C - Classee en ZRR";
       LIBGEO := Some (VStr "Commune A") |};
    {| CODGEO := VStr "75056"; ZRR_SIMP := VStr "NC - Non classee";
       LIBGEO := Some (VStr "Paris") |};
    {| CODGEO := VStr "02001"; ZRR_SIMP := VNaN;
       LIBGEO := Some (VStr "Commune C") |} ].

Definition ascii_digit (c : ascii) : bool :=
  (48 <=? nat_of_ascii c)%nat && (nat_of_ascii c <=? 57)%nat.

(** A reader for the examples. Fields are separated by commas and found by
    the names of the header line. A column is typed as pandas types it: a
    column of whole numbers holds integers; a column of whole numbers and
    empty fields holds floats and missing values; any other column holds
    strings and missing values. *)
Fixpoint split_commas (field : string) (s : string) : list string :=
  match s with
  | EmptyString => [field]
  | String c rest =>
      if Ascii.eqb c ","%char then field :: split_commas EmptyString rest
      else split_commas (field +:+ String c EmptyString) rest
  end.

Fixpoint index_of (name : string) (names : list string) : option nat :=
  match names with
  | [] => None
  | n :: rest => if String.eqb n name then Some 0 else S <$> index_of name rest
  end.

Definition field_at (i : option nat) (fields : list string) : string :=
  match i with
  | Some i => nth i fields EmptyString
  | None => EmptyString
  end.

Definition is_whole (s : string) : bool :=
  negb (String.eqb s EmptyString) && every ascii_digit s.

Definition whole_of (s : string) : Z :=
  match NilZero.uint_of_string s with
  | Some u => Z.of_uint u
  | None => 0%Z
  end.

Inductive Dtype := int64 | float64 | object.

Definition dtype_of (column : list string) : Dtype :=
  if forallb is_whole column then int64
  else if forallb (fun s => String.eqb s EmptyString || is_whole s) column then float64
  else object.

Definition cell (dtype : Dtype) (s : string) : Value :=
  if String.eqb s EmptyString then VNaN
  else match dtype with
       | int64 => VInt (whole_of s)
       | float64 => VFloat (py_str (VInt (whole_of s)) +:+ ".0")
       | object => VStr s
       end.

Definition csv_table (header : string) (data : list string) : CsvTable :=
  let names := split_commas EmptyString header in
  let lines := map (split_commas EmptyString) data in
  let column name := map (field_at (index_of name names)) lines in
  let typed name fields := cell (dtype_of (column name)) (field_at (index_of name names) fields) in
  {| has_CODGEO := bool_decide (is_Some (index_of "CODGEO" names));
     zone_column :=
       match index_of "ZRR_SIMP" names, lines with
       | None, _ => ZoneAbsent
       | Some _, [] => ZoneText
       | Some _, _ :: _ =>
           match dtype_of (column "ZRR_SIMP") with
           | object => ZoneText
           | _ => ZoneNotText
           end
       end;
     table_rows :=
       map (fun fields =>
              {| CODGEO := typed "CODGEO" fields;
                 ZRR_SIMP := typed "ZRR_SIMP" fields;
                 LIBGEO := match index_of "LIBGEO" names with
                           | Some _ => Some (typed "LIBGEO" fields)
                           | None => None
                           end |}) lines |}.

Definition zrr_file : list string :=
  [ "Zonage ZRR"; "Source : ANCT"; "Millesime 2024"; "Champ : France";
    "Codes : C classee, P partiellement classee, NC non classee";
    "CODGEO,LIBGEO,ZRR_SIMP";
    "1234,Commune A,C - Classee en ZRR";
    "75056,Paris,NC - Non classee";
    "2001,Commune C," ].


Definition zrr_file_no_zone : list string :=
  take 5 zrr_file ++ [ "CODGEO,LIBGEO"; "1234,Commune A"; "75056,Paris" ].

(** A listing where a code is not filled in: the codes are floats. *)
Definition zrr_file_float : list string :=
  take 6 zrr_file ++ [ "1234,Commune A,C - Classee en ZRR"; ",Lieu-dit,C - Classee en ZRR" ].

(** ** The services and the two analyses *)

(** What can stop an analysis: an exception of a loader or a [ValueError]
    of the analysis itself ([Raised]), a [RuntimeError], [.get] called on
    [None] ([AttributeError]), and a request that does not come back with a
    response ([RequestException]). *)
Inductive Failure :=
| Raised (e : Exn)
| RuntimeError (msg : string)
| AttributeError
| RequestException.

Inductive Outcome (A : Type) :=
| Done (a : A)
| Failed (f : Failure).
Arguments Done {A} a.
Arguments Failed {A} f.

#[export] Instance outcome_bind : MBind Outcome := fun A B k c =>
  match c with
  | Done a => k a
  | Failed f => Failed f
  end.

Definition lift {A : Type} (r : Result A) : Outcome A :=
  match r with
  | Ok a => Done a
  | Raise e => Failed (Raised e)
  end.

(** A response: its status and the document of its body, read by
    [.json()]. *)
Record Response (A : Type) := {
  status_code : Z;
  json : A
}.
Arguments status_code {A} r.
Arguments json {A} r.

(** A key of a JSON object read with [.get(key, {})]: not there, there
    with [null], or there with a value. *)
Inductive Field (A : Type) :=
| Missing
| Null
| Present (a : A).
Arguments Missing {A}.
Arguments Null {A}.
Arguments Present {A} a.

(** The keys the program reads in the answer of the SIRENE service; a text
    key is [None] when it is missing or [null]. *)
Record Adresse := {
  numeroVoieEtablissement : option string;
  typeVoieEtablissement : option string;
  libelleVoieEtablissement : option string;
  codePostalEtablissement : option string;
  libelleCommuneEtablissement : option string;
  codeCommuneEtablissement : option Value
}.

Record UniteLegale := {
  denominationUniteLegale : option string
}.

(** [uniteLegale] is read with [.get(key, {}) or {}]: [None] stands for a
    key that is missing, [null] or an empty object. *)
Record Etablissement := {
  adresseEtablissement : Field Adresse;
  uniteLegale : option UniteLegale;
  denominationUsuelleEtablissement : option string
}.

(** A candidate of the address service: the [label] and [citycode] of its
    properties, the [coordinates] of its geometry (longitude, latitude). *)
Record Feature := {
  label : option string;
  citycode : option Value;
  coordinates : Q * Q
}.

(** The dictionary an analysis returns, read with [.get]: a key the
    analysis does not write is [None]. *)
Record Analyse := {
  type : string;
  nom_entreprise : option string;
  adresse : option string;
  adresse_trouvee : option string;
  code_commune : option Value;
  in_zrr : option bool;
  zrr_label : option Value;
  qpv_data : option ProximityResult
}.

(** [a or ""]. *)
Definition or_empty (a : option string) : string :=
  match a with
  | Some s => s
  | None => EmptyString
  end.

(** [a or b] on optional texts: [a] when it is a text that is not empty. *)
Definition py_or (a b : option string) : option string :=
  match a with
  | Some s => if String.eqb s EmptyString then b else Some s
  | None => b
  end.

(** The object [{}]: every key is missing. *)
Definition no_adresse : Adresse :=
  {| numeroVoieEtablissement := None;
     typeVoieEtablissement := None;
     libelleVoieEtablissement := None;
     codePostalEtablissement := None;
     libelleCommuneEtablissement := None;
     codeCommuneEtablissement := None |}.

(** [siret_clean]: the characters of the input that are digits, [isdigit]
    being the test of Python. *)
Fixpoint siret_clean (isdigit : ascii -> bool) (siret_input : string) : string :=
  match siret_input with
  | EmptyString => EmptyString
  | String c rest =>
      if isdigit c then String c (siret_clean isdigit rest)
      else siret_clean isdigit rest
  end.

Section Analyses.

Context `{Planar}.

(** [Point(lon, lat)] of shapely and [str.strip()] of Python. *)
Variable point : Q -> Q -> Point.
Variable strip : string -> string.
Variable parse_table : string -> list string -> CsvTable.

(** The two files on disk and the two services: [sirene siret] is the
    request for an establishment, [ban q] the search of the address [q]
    with one candidate asked for. *)
Record World := {
  qpv_geo : option GeoFile;
  zrr_csv : option (list string);
  sirene : string -> Outcome (Response (option Etablissement));
  ban : string -> Outcome (Response (list Feature))
}.

Variable w : World.

(** [get_sirene_etab]; the body is read only on status 200, and
    [data.get("etablissement")] is its [json]. *)
Definition get_sirene_etab (siret : string) : Outcome (option Etablissement) :=
  r ← sirene w siret;
  if negb (Z.eqb (status_code r) 200)
  then Failed (RuntimeError
                 ("Erreur API SIRENE (" +:+ py_str (VInt (status_code r)) +:+ ")"))
  else Done (json r).

(** The text sent to the address service for an establishment. *)
Definition adresse_full (adr : Adresse) : string :=
  let numero := or_empty (numeroVoieEtablissement adr) in
  let type_voie := or_empty (typeVoieEtablissement adr) in
  let lib_voie := or_empty (libelleVoieEtablissement adr) in
  let code_postal := or_empty (codePostalEtablissement adr) in
  let commune_nom := or_empty (libelleCommuneEtablissement adr) in
  strip (numero +:+ " " +:+ type_voie +:+ " " +:+ lib_voie +:+ ", "
         +:+ code_postal +:+ " " +:+ commune_nom).

(** The point of the first candidate, when the service answers 200 with a
    candidate. *)
Definition geocode (r_ban : Response (list Feature)) : option Point :=
  if Z.eqb (status_code r_ban) 200 then
    match json r_ban with
    | feat :: _ => Some (point (fst (coordinates feat)) (snd (coordinates feat)))
    | [] => None
    end
  else None.

(** [analyse_depuis_siret]. *)
Definition analyse_depuis_siret (siret : string) : Outcome Analyse :=
  qpv_gdf ← lift (load_qpv_polygones (qpv_geo w));
  zrr ← lift (load_zrr_data parse_table (zrr_csv w));
  etab ← get_sirene_etab siret;
  match etab with
  | None => Failed AttributeError
  | Some etab =>
      adr ← match adresseEtablissement etab with
             | Missing => Done no_adresse
             | Null => Failed AttributeError
             | Present adr => Done adr
             end;
      let nom_ent :=
        py_or (match uniteLegale etab with
               | Some ul => denominationUniteLegale ul
               | None => None
               end)
              (denominationUsuelleEtablissement etab) in
      let code_commune := codeCommuneEtablissement adr in
      let zrr_statut := check_zrr_statut code_commune (fst zrr) (snd zrr) in
      r_ban ← ban w (adresse_full adr);
      let res_qpv := calcul_proximite_qpv (geocode r_ban) qpv_gdf in
      Done {| type := "siret";
              nom_entreprise := nom_ent;
              adresse := Some (adresse_full adr);
              adresse_trouvee := None;
              code_commune := code_commune;
              in_zrr := fst zrr_statut;
              zrr_label := snd zrr_statut;
              qpv_data := res_qpv |}
  end.

(** [analyse_depuis_adresse_raw]. *)
Definition analyse_depuis_adresse_raw (adresse_saisie : string) : Outcome Analyse :=
  qpv_gdf ← lift (load_qpv_polygones (qpv_geo w));
  zrr ← lift (load_zrr_data parse_table (zrr_csv w));
  r ← ban w adresse_saisie;
  if negb (Z.eqb (status_code r) 200)
  then Failed (RuntimeError "Erreur API Adresse")
  else
    match json r with
    | [] => Failed (Raised (ValueError "Adresse non trouvée."))
    | feat :: _ =>
        let pt_wgs := point (fst (coordinates feat)) (snd (coordinates feat)) in
        let zrr_statut := check_zrr_statut (citycode feat) (fst zrr) (snd zrr) in
        let res_qpv := calcul_proximite_qpv (Some pt_wgs) qpv_gdf in
        Done {| type := "adresse";
                nom_entreprise := None;
                adresse := None;
                adresse_trouvee := label feat;
                code_commune := citycode feat;
                in_zrr := fst zrr_statut;
                zrr_label := snd zrr_statut;
                qpv_data := res_qpv |}
    end.

End Analyses.

(** A world for the examples, on the plane of strips: the layer in
    kilometres, the listing, an establishment of commune 01234 and an
    address service that finds it. *)
Fixpoint lstrip (s : string) : string :=
  match s with
  | String c rest => if Ascii.eqb c " "%char then lstrip rest else s
  | EmptyString => EmptyString
  end.

Definition reverse_string (s : string) : string :=
  string_of_list_ascii (rev (list_ascii_of_string s)).

Definition strip_spaces (s : string) : string :=
  reverse_string (lstrip (reverse_string (lstrip s))).

Definition etab_exemple : Etablissement :=
  {| adresseEtablissement :=
       Present {| numeroVoieEtablissement := Some "10";
                  typeVoieEtablissement := Some "RUE";
                  libelleVoieEtablissement := Some "DE LA PAIX";
                  codePostalEtablissement := Some "01000";
                  libelleCommuneEtablissement := Some "COMMUNE A";
                  codeCommuneEtablissement := Some (VStr "01234") |};
     uniteLegale := Some {| denominationUniteLegale := Some "ACME" |};
     denominationUsuelleEtablissement := None |}.

Definition feature_exemple : Feature :=
  {| label := Some "10 Rue de la Paix 01000 Commune A";
     citycode := Some (VStr "01234");
     coordinates := (5, 5)%Q |}.

Definition world_exemple : @World Strips.strips :=
  {| qpv_geo := Some km_file;
     zrr_csv := Some zrr_file;
     sirene := fun _ => Done {| status_code := 200; json := Some etab_exemple |};
     ban := fun _ => Done {| status_code := 200; json := [feature_exemple] |} |}.

(** The same with the address service out of order, and with a layer that
    declares no CRS. *)
Definition world_ban_503 : @World Strips.strips :=
  {| qpv_geo := qpv_geo world_exemple;
     zrr_csv := zrr_csv world_exemple;
     sirene := sirene world_exemple;
     ban := fun _ => Done {| status_code := 503; json := [] |} |}.

Definition world_sirene_404 : @World Strips.strips :=
  {| qpv_geo := qpv_geo world_exemple;
     zrr_csv := zrr_csv world_exemple;
     sirene := fun _ => Done {| status_code := 404; json := None |};
     ban := ban world_exemple |}.

Definition world_naive : @World Strips.strips :=
  {| qpv_geo := Some naive_file;
     zrr_csv := zrr_csv world_exemple;
     sirene := sirene world_exemple;
     ban := ban world_exemple |}.

Definition strips_point (lon lat : Q) : @Point Strips.strips := (lon, lat).

(** * Theorems *)

Example zfill_1234 : zfill 5 "1234" = "01234".
Proof. reflexivity. Qed.
Example zfill_int : zfill 5 (py_str (VInt 1234)) = "01234".
Proof. reflexivity. Qed.
Example zfill_neg : zfill 5 (py_str (VInt (-12))) = "-0012".
Proof. reflexivity. Qed.

Example strips_inside :
  est_dans_qpv <$> calcul_proximite_qpv (Some Strips.pt_inside) Strips.layer = Some true.
Proof. reflexivity. Qed.
Example strips_1km :
  a_moins_1km_qpv <$> calcul_proximite_qpv (Some Strips.pt_at_1km) Strips.layer = Some true.
Proof. reflexivity. Qed.

(** ** Strings *)

Lemma length_append (s t : string) :
  String.length (s +:+ t) = String.length s + String.length t.
Proof. induction s as [|c s IH]; simpl; [reflexivity | now rewrite IH]. Qed.

Lemma append_empty (s : string) : s +:+ EmptyString = s.
Proof.
  induction s as [|c s IH]; [reflexivity|].
  change (String c (s +:+ EmptyString) = String c s). now rewrite IH.
Qed.

Lemma length_zeros n : String.length (zeros n) = n.
Proof. induction n as [|n IH]; simpl; [reflexivity | now rewrite IH]. Qed.

Lemma zfill_length w s :
  String.length (zfill w s) = Nat.max w (String.length s).
Proof.
  unfold zfill. destruct (w - String.length s) as [|k] eqn:E; [lia|].
  destruct s as [|c rest]; simpl in *.
  - rewrite length_zeros. lia.
  - destruct (is_sign c); simpl; rewrite length_append; simpl;
      rewrite length_zeros; lia.
Qed.

Lemma zfill_unsigned w s :
  unsigned s -> zfill w s = zeros (w - String.length s) +:+ s.
Proof.
  intros Hs. unfold zfill.
  destruct (w - String.length s) as [|k] eqn:E; [reflexivity|].
  destruct s as [|c rest]; simpl in *.
  - now rewrite append_empty.
  - now rewrite Hs.
Qed.

Lemma prefix_char c s :
  String.prefix (String c EmptyString) s = true <-> exists rest, s = String c rest.
Proof.
  destruct s as [|a rest]; simpl.
  - split; [discriminate | intros [? [=]]].
  - destruct (Ascii.ascii_dec c a) as [->|Hne].
    + split; [eauto | now destruct rest].
    + split; [discriminate | intros [? [= <- _]]; congruence].
Qed.

Lemma startswith_C_or_P_marked s : startswith_C_or_P s = true <-> marked s.
Proof.
  unfold startswith_C_or_P, marked. rewrite orb_true_iff, !prefix_char.
  split.
  - intros [[r ->]|[r ->]]; eauto.
  - intros [r [->| ->]]; eauto.
Qed.

Lemma codgeo_is_true code r : codgeo_is code r = true <-> CODGEO r = VStr code.
Proof.
  unfold codgeo_is. destruct (CODGEO r) as [s| | |]; try (split; [discriminate|congruence]).
  rewrite String.eqb_eq. split; congruence.
Qed.

(** ** [check_zrr_statut] *)

(** The head of a filtered list is the first element that passes. *)
Lemma filter_first {A : Type} (f : A -> bool) (l : list A) :
  match List.filter f l with
  | [] => forall x, In x l -> f x = false
  | r :: _ =>
      exists pre post,
        l = (pre ++ r :: post)%list /\ (forall x, In x pre -> f x = false) /\ f r = true
  end.
Proof.
  induction l as [|a l IH]; simpl; [tauto|].
  destruct (f a) eqn:Ha.
  - exists [], l. repeat split; [intros ? []|assumption].
  - destruct (List.filter f l) as [|r rs].
    + intros x [<-|Hx]; auto.
    + destruct IH as (pre & post & -> & Hpre & Hr).
      exists (a :: pre), post. repeat split; [|assumption].
      intros x [<-|Hx]; auto.
Qed.

Lemma codgeo_is_false code r : codgeo_is code r = false <-> CODGEO r <> VStr code.
Proof.
  rewrite <- codgeo_is_true. destruct (codgeo_is code r); split; congruence.
Qed.


(** The answer on a value Python takes for true. *)
Lemma check_zrr_statut_truthy v df communes :
  truthy v = true ->
  check_zrr_statut (Some v) df communes =
  let code := zfill CODE_WIDTH (py_str v) in
  (Some (bool_decide (code ∈ communes)),
   if bool_decide (code ∈ communes)
   then match List.filter (codgeo_is code) df with
        | [] => None
        | r :: _ => LIBGEO r
        end
   else None).
Proof. intros Hv. unfold check_zrr_statut. now rewrite Hv. Qed.

Lemma truthy_str s : truthy (VStr s) = false <-> s = EmptyString.
Proof.
  simpl. rewrite negb_false_iff. apply String.eqb_eq.
Qed.

Lemma truthy_str_nonempty s : s <> EmptyString -> truthy (VStr s) = true.
Proof.
  intros Hs. destruct (truthy (VStr s)) eqn:E; [reflexivity|].
  apply truthy_str in E. contradiction.
Qed.



(** A number is a code too (C7), and the number zero is false for Python:
    the answer is the indeterminate one. *)
Example check_zrr_statut_zero df communes :
  check_zrr_statut (Some (VInt 0)) df communes = (None, None).
Proof. reflexivity. Qed.

(** C7. The codes ["1234"], ["01234"] and the number [1234] have the same
    normal form ["01234"], at query time and at load time, and for every
    table and membership set [check_zrr_statut] gives the same answer on the
    three. *)
Theorem code_normalization_invariant :
  forall (df : list ZrrRow) (communes : gset string),
    zfill 5 (py_str (VStr "1234")) = "01234" /\
    zfill 5 (py_str (VStr "01234")) = "01234" /\
    zfill 5 (py_str (VInt 1234)) = "01234" /\
    (forall z l, CODGEO (normalize_codgeo {| CODGEO := VStr "1234"; ZRR_SIMP := z; LIBGEO := l |})
                 = VStr "01234" /\
                 CODGEO (normalize_codgeo {| CODGEO := VStr "01234"; ZRR_SIMP := z; LIBGEO := l |})
                 = VStr "01234" /\
                 CODGEO (normalize_codgeo {| CODGEO := VInt 1234; ZRR_SIMP := z; LIBGEO := l |})
                 = VStr "01234") /\
    check_zrr_statut (Some (VStr "1234")) df communes
    = check_zrr_statut (Some (VStr "01234")) df communes /\
    check_zrr_statut (Some (VInt 1234)) df communes
    = check_zrr_statut (Some (VStr "01234")) df communes.
Proof.
  intros df communes. repeat split; reflexivity.
Qed.

(** ** [load_zrr_data] *)





Lemma codgeo_list_In df code :
  In code (codgeo_list df) <-> exists r, In r df /\ CODGEO r = VStr code.
Proof.
  unfold codgeo_list. rewrite <- list_elem_of_In, list_elem_of_omap. split.
  - intros (r & Hr & Hc). exists r. split; [now apply list_elem_of_In|].
    destruct (CODGEO r); try discriminate. congruence.
  - intros (r & Hr & Hc). exists r. split; [now apply list_elem_of_In|].
    now rewrite Hc.
Qed.

Lemma load_zrr_data_members df code :
  code ∈ (list_to_set (codgeo_list (List.filter zrr_flagged df)) : gset string)
  <-> exists r z, In r df /\ CODGEO r = VStr code /\
                  ZRR_SIMP r = VStr z /\ marked z.
Proof.
  rewrite elem_of_list_to_set, list_elem_of_In, codgeo_list_In. split.
  - intros (r & Hr & Hcode). apply filter_In in Hr as [Hin Hflag].
    unfold zrr_flagged in Hflag.
    destruct (ZRR_SIMP r) as [z| | |] eqn:Hz; try discriminate.
    exists r, z. repeat split; auto. now apply startswith_C_or_P_marked.
  - intros (r & z & Hin & Hcode & Hz & Hm). exists r. split; [|assumption].
    apply filter_In. split; [assumption|]. unfold zrr_flagged. rewrite Hz.
    now apply startswith_C_or_P_marked.
Qed.

(** The exceptions of [load_zrr_data] on a file that is there. *)
Lemma load_zrr_data_raises parse_table lines :
  match lines with
  | [] => load_zrr_data parse_table (Some lines) = Raise EmptyDataError
  | _ :: _ =>
      match drop 5 lines with
      | [] => load_zrr_data parse_table (Some lines) = Raise ParserError
      | header :: data =>
          let table := parse_table header data in
          (has_CODGEO table = false ->
           load_zrr_data parse_table (Some lines) = Raise (KeyError "CODGEO")) /\
          (has_CODGEO table = true -> zone_column table = ZoneAbsent ->
           load_zrr_data parse_table (Some lines) = Raise (KeyError "ZRR_SIMP")) /\
          (has_CODGEO table = true -> zone_column table = ZoneNotText ->
           load_zrr_data parse_table (Some lines) = Raise StrAccessorError)
      end
  end.
Proof.
  destruct lines as [|l lines]; [reflexivity|].
  unfold load_zrr_data, read_csv, ZRR_HEADER.
  destruct (drop 5 (l :: lines)) as [|header data]; [reflexivity|].
  cbv zeta. split; [|split].
  - intros ->. reflexivity.
  - intros -> ->. reflexivity.
  - intros -> ->. reflexivity.
Qed.




Example load_zrr_file :
  load_zrr_data csv_table (Some zrr_file) = Ok (zrr_table, {[ "01234" ]}).
Proof. vm_compute. reflexivity. Qed.

Example load_zrr_file_no_zone :
  load_zrr_data csv_table (Some zrr_file_no_zone) = Raise (KeyError "ZRR_SIMP").
Proof. reflexivity. Qed.

(** One code is not filled in: the codes are floats, and the code 1234 is
    listed as ["1234.0"]. *)
Example load_zrr_file_float :
  fst <$> (match load_zrr_data csv_table (Some zrr_file_float) with
           | Ok a => Some a
           | Raise _ => None
           end)
  = Some [ {| CODGEO := VStr "1234.0"; ZRR_SIMP := VStr "C - Classee en ZRR";
              LIBGEO := Some (VStr "Commune A") |};
           {| CODGEO := VNaN; ZRR_SIMP := VStr "C - Classee en ZRR";
              LIBGEO := Some (VStr "Lieu-dit") |} ].
Proof. reflexivity. Qed.

(** ** Least value and its position *)

Lemma Qmin_cases (x y : Q) :
  ((x ?= y)%Q = Gt /\ Qmin x y = y) \/ ((x ?= y)%Q <> Gt /\ Qmin x y = x).
Proof.
  unfold Qmin, GenericMinMax.gmin.
  destruct (x ?= y)%Q; [right|right|left]; split; congruence.
Qed.

Lemma series_min_le_first d ds : (series_min d ds <= d)%Q.
Proof.
  unfold series_min. revert d. induction ds as [|x ds IH]; intros d; simpl.
  - apply Qle_refl.
  - eapply Qle_trans; [apply IH | apply Q.le_min_l].
Qed.

Lemma series_min_le d ds x : In x ds -> (series_min d ds <= x)%Q.
Proof.
  unfold series_min. revert d. induction ds as [|y ds IH]; intros d; simpl; [tauto|].
  intros [->|Hx].
  - eapply Qle_trans; [apply series_min_le_first | apply Q.le_min_r].
  - now apply IH.
Qed.

Lemma series_min_In d ds : In (series_min d ds) (d :: ds).
Proof.
  unfold series_min. revert d. induction ds as [|y ds IH]; intros d; simpl.
  - now left.
  - destruct (IH (Qmin d y)) as [Hd|Hd].
    + destruct (Qmin_cases d y) as [[_ E]|[_ E]]; rewrite E in *; auto.
    + auto.
Qed.

(** [idxmin] is a position of the series, and the value there is the
    least one. *)
Lemma idxmin_from_lookup ds : forall (pre : list Q) best m,
  pre !! best = Some m ->
  (pre ++ ds) !! idxmin_from (length pre) best m ds = Some (series_min m ds).
Proof.
  induction ds as [|d ds IH]; intros pre best m Hbest; simpl.
  - rewrite app_nil_r. exact Hbest.
  - unfold series_min. simpl.
    replace (pre ++ d :: ds) with ((pre ++ [d]) ++ ds)
      by (rewrite <- app_assoc; reflexivity).
    replace (S (length pre)) with (length (pre ++ [d]))
      by (rewrite length_app; simpl; lia).
    destruct (Qmin_cases m d) as [[Hc E]|[Hc E]]; rewrite E.
    + rewrite Hc. apply IH.
      rewrite lookup_app_r by lia. now rewrite Nat.sub_diag.
    + destruct (m ?= d)%Q; try congruence;
        apply IH; rewrite lookup_app_l; auto; now apply lookup_lt_Some in Hbest.
Qed.

Lemma idxmin_lookup d ds : (d :: ds) !! idxmin d ds = Some (series_min d ds).
Proof. apply (idxmin_from_lookup ds [d] 0 d). reflexivity. Qed.

(** ** [calcul_proximite_qpv] *)

Section QpvFacts.

Context `{Planar}.

Lemma is_nil_true {A : Type} (l : list A) : is_nil l = true <-> l = [].
Proof. destruct l; simpl; split; congruence. Qed.

Lemma least_distance_series_min pt row0 others :
  least_distance pt (row0 :: others)
    (series_min (distance_to pt row0) (map (distance_to pt) others)).
Proof.
  split.
  - destruct (series_min_In (distance_to pt row0) (map (distance_to pt) others))
      as [E|Hin].
    + exists row0. split; [now left | exact E].
    + apply in_map_iff in Hin as (row & E & Hrow). exists row. split; [now right | exact E].
  - intros row [<-|Hrow].
    + apply series_min_le_first.
    + apply series_min_le. now apply (in_map (distance_to pt)).
Qed.

Lemma idxmin_row pt row0 others :
  let idx := idxmin (distance_to pt row0) (map (distance_to pt) others) in
  In (nth idx (row0 :: others) row0) (row0 :: others) /\
  distance_to pt (nth idx (row0 :: others) row0)
  = series_min (distance_to pt row0) (map (distance_to pt) others).
Proof.
  intros idx.
  pose proof (idxmin_lookup (distance_to pt row0) (map (distance_to pt) others)) as Hl.
  fold idx in Hl.
  change (distance_to pt row0 :: map (distance_to pt) others)
    with (distance_to pt <$> (row0 :: others)) in Hl.
  rewrite list_lookup_fmap in Hl.
  destruct ((row0 :: others) !! idx) as [row|] eqn:Hrow; [|discriminate].
  injection Hl as Hl.
  rewrite (nth_lookup_Some _ _ row0 _ Hrow). split; [|exact Hl].
  apply list_elem_of_In. eapply list_elem_of_lookup_2. exact Hrow.
Qed.

(** What [calcul_proximite_qpv] returns on a point and a layer with rows,
    field by field. *)
Lemma calcul_proximite_qpv_fields (pt : Point) (crs : CRS) (rows : list QpvRow) :
  rows <> [] ->
  let p := point_to_crs WGS84 crs pt in
  exists r m row,
    calcul_proximite_qpv (Some pt) (Frame crs rows) = Some r /\
    est_dans_qpv r = negb (is_nil (containing p rows)) /\
    qpv_dans_lesquels r = map ident_of (containing p rows) /\
    least_distance p rows m /\
    distance_km r = (m / 1000)%Q /\
    a_moins_1km_qpv r = Qle_bool (distance_km r) 1 /\
    In row rows /\ distance (geometry row) p = m /\
    qpv_plus_proche r =
      Some {| near_code_qp := code_qp row;
              near_lib_qp := lib_qp row;
              near_commune_qp := lib_com row;
              near_distance_km := distance_km r |}.
Proof.
  intros Hrows p. destruct rows as [|row0 others]; [congruence|].
  destruct (idxmin_row p row0 others) as [Hin Hd].
  eexists _, _, _. split; [reflexivity|]. cbn [est_dans_qpv qpv_dans_lesquels
    distance_km a_moins_1km_qpv qpv_plus_proche].
  repeat split.
  - fold p. unfold containing, is_inside.
    destruct (List.filter _ (row0 :: others)); reflexivity.
  - apply (proj1 (least_distance_series_min p row0 others)).
  - apply (proj2 (least_distance_series_min p row0 others)).
  - exact Hin.
  - exact Hd.
Qed.

Lemma containing_In pt rows row :
  In row (containing pt rows) <-> In row rows /\ contains (geometry row) pt = true.
Proof. apply filter_In. Qed.

Lemma containing_nil pt rows :
  containing pt rows = [] <-> forall row, In row rows -> contains (geometry row) pt = false.
Proof.
  split.
  - intros E row Hrow. destruct (contains (geometry row) pt) eqn:Hc; [|reflexivity].
    assert (Hin : In row (containing pt rows)) by now apply containing_In.
    rewrite E in Hin. destruct Hin.
  - intros Hall. destruct (containing pt rows) as [|row l] eqn:E; [reflexivity|].
    assert (Hin : In row (containing pt rows)) by (rewrite E; now left).
    apply containing_In in Hin as [Hrow Hc]. rewrite (Hall row Hrow) in Hc. discriminate.
Qed.

Lemma negb_is_nil_true {A : Type} (l : list A) : negb (is_nil l) = true <-> l <> [].
Proof. destruct l; simpl; split; congruence. Qed.

(** C1. [calcul_proximite_qpv] returns [None] exactly when the point is
    [None] or the layer is empty: it does so on [None] whatever the layer,
    on an empty layer whatever the point, and on a point and a layer with
    rows it returns a result record. *)
Theorem calcul_proximite_qpv_none_iff :
  forall (pt : option Point) (gdf : GeoDataFrame),
    (calcul_proximite_qpv pt gdf = None <-> pt = None \/ gdf_empty gdf = true) /\
    calcul_proximite_qpv None gdf = None /\
    (gdf_empty gdf = true -> calcul_proximite_qpv pt gdf = None) /\
    (forall p, pt = Some p -> gdf_empty gdf = false ->
       exists r, calcul_proximite_qpv pt gdf = Some r).
Proof.
  intros pt gdf. repeat split.
  - destruct pt as [p|]; [|now left].
    destruct gdf as [|crs [|row0 others]]; [now right | now right | discriminate].
  - intros [->|Hempty]; [reflexivity|].
    destruct pt as [p|]; [|reflexivity].
    destruct gdf as [|crs [|row0 others]]; try reflexivity.
    cbv in Hempty. discriminate.
  - destruct pt as [p|]; [|reflexivity].
    destruct gdf as [|crs [|row0 others]]; try reflexivity.
    intros Hempty. cbv in Hempty. discriminate.
  - intros p -> Hempty.
    destruct gdf as [|crs [|row0 others]]; try (cbv in Hempty; discriminate).
    eexists. reflexivity.
Qed.

(** C2. On a point and a layer with rows, [a_moins_1km_qpv] is true
    exactly when [distance_km] is at most 1; in particular it is true when
    [distance_km] is 1. *)
Theorem a_moins_1km_qpv_iff :
  forall (pt : Point) (crs : CRS) (rows : list QpvRow),
    rows <> [] ->
    exists r,
      calcul_proximite_qpv (Some pt) (Frame crs rows) = Some r /\
      (a_moins_1km_qpv r = true <-> (distance_km r <= 1)%Q) /\
      ((distance_km r == 1)%Q -> a_moins_1km_qpv r = true).
Proof.
  intros pt crs rows Hrows.
  destruct (calcul_proximite_qpv_fields pt crs rows Hrows)
    as (r & m & row & Hr & _ & _ & _ & _ & Hflag & _).
  exists r. split; [exact Hr|]. rewrite Hflag. split.
  - apply Qle_bool_iff.
  - intros E. apply Qle_bool_iff. rewrite E. apply Qle_refl.
Qed.

Lemma map_ident_of_names rows :
  Forall2 names_row rows (map ident_of rows).
Proof. induction rows; simpl; constructor; [repeat split | assumption]. Qed.

(** C3. On a point and a layer with rows, [est_dans_qpv] is true exactly
    when some row of the layer contains the projected point, and
    [qpv_dans_lesquels] has one entry for every row that contains it, in the
    order of the layer, with the code, the name and the commune of that
    row. *)
Theorem est_dans_qpv_iff :
  forall (pt : Point) (crs : CRS) (rows : list QpvRow),
    rows <> [] ->
    let p := point_to_crs WGS84 crs pt in
    exists r,
      calcul_proximite_qpv (Some pt) (Frame crs rows) = Some r /\
      (est_dans_qpv r = true <->
         exists row, In row rows /\ contains (geometry row) p = true) /\
      Forall2 names_row
        (List.filter (fun row => contains (geometry row) p) rows)
        (qpv_dans_lesquels r).
Proof.
  intros pt crs rows Hrows p.
  destruct (calcul_proximite_qpv_fields pt crs rows Hrows)
    as (r & m & row & Hr & Hest & Hlist & _).
  exists r. split; [exact Hr|]. fold p in Hest, Hlist.
  split; [|rewrite Hlist; apply map_ident_of_names].
  rewrite Hest, negb_is_nil_true. split.
  - intros Hne.
    destruct (containing p rows) as [|row' l] eqn:E; [congruence|].
    exists row'. apply containing_In. rewrite E. now left.
  - intros (row' & Hin) E.
    apply containing_In in Hin. rewrite E in Hin. destruct Hin.
Qed.

(** C4. On a point and a layer with rows, [distance_km] is the least of
    the distances from the projected point to the rows, divided by 1000;
    [qpv_plus_proche] carries the code, name and commune of a row at that
    least distance; and, plane geometry granted, when a row contains the
    point [est_dans_qpv] is true and [distance_km] is zero. *)
Theorem distance_km_least :
  forall (pt : Point) (crs : CRS) (rows : list QpvRow),
    rows <> [] ->
    let p := point_to_crs WGS84 crs pt in
    exists r m,
      calcul_proximite_qpv (Some pt) (Frame crs rows) = Some r /\
      least_distance p rows m /\
      distance_km r = (m / 1000)%Q /\
      (exists row n,
          In row rows /\ distance (geometry row) p = m /\
          qpv_plus_proche r = Some n /\
          near_code_qp n = code_qp row /\
          near_lib_qp n = lib_qp row /\
          near_commune_qp n = lib_com row) /\
      (planar_laws ->
       forall row, In row rows -> contains (geometry row) p = true ->
         est_dans_qpv r = true /\ (distance_km r == 0)%Q).
Proof.
  intros pt crs rows Hrows p.
  destruct (calcul_proximite_qpv_fields pt crs rows Hrows)
    as (r & m & row & Hr & Hest & _ & Hleast & Hkm & _ & Hin & Hd & Hnear).
  fold p in Hest, Hleast, Hd.
  exists r, m. split; [exact Hr|]. split; [exact Hleast|]. split; [exact Hkm|].
  split.
  - eexists row, _. split; [exact Hin|]. split; [exact Hd|].
    split; [exact Hnear|]. repeat split.
  - intros [Hnn Hzero Hcc] row' Hrow' Hc. split.
    + rewrite Hest. apply negb_is_nil_true. intros E.
      rewrite containing_nil in E. rewrite (E row' Hrow') in Hc. discriminate.
    + rewrite Hkm.
      assert (Hle : (m <= 0)%Q).
      { rewrite <- (proj2 (Hzero (geometry row') p) (Hcc _ _ Hc)).
        apply (proj2 Hleast row' Hrow'). }
      assert (Hge : (0 <= m)%Q) by (rewrite <- Hd; apply Hnn).
      assert (E : (m == 0)%Q) by lra.
      rewrite E. reflexivity.
Qed.

(** C5. Plane geometry granted, on a point that is in no row of a layer
    with rows (boundaries included), [est_dans_qpv] is false and
    [distance_km] is positive; it is the least of the distances from the
    projected point to the rows, divided by 1000. *)
Theorem outside_every_polygon :
  forall (pt : Point) (crs : CRS) (rows : list QpvRow),
    planar_laws ->
    rows <> [] ->
    let p := point_to_crs WGS84 crs pt in
    (forall row, In row rows -> covers (geometry row) p = false) ->
    exists r m,
      calcul_proximite_qpv (Some pt) (Frame crs rows) = Some r /\
      est_dans_qpv r = false /\
      (0 < distance_km r)%Q /\
      least_distance p rows m /\
      distance_km r = (m / 1000)%Q.
Proof.
  intros pt crs rows [Hnn Hzero Hcc] Hrows p Hout.
  destruct (calcul_proximite_qpv_fields pt crs rows Hrows)
    as (r & m & row & Hr & Hest & _ & Hleast & Hkm & _ & Hin & Hd & _).
  fold p in Hest, Hleast, Hd.
  exists r, m. split; [exact Hr|].
  split; [|split; [|split; [exact Hleast | exact Hkm]]].
  - rewrite Hest. apply negb_false_iff, is_nil_true, containing_nil.
    intros row' Hrow'. destruct (contains (geometry row') p) eqn:Hc; [|reflexivity].
    apply Hcc in Hc. rewrite (Hout row' Hrow') in Hc. discriminate.
  - rewrite Hkm.
    assert (Hge : (0 <= m)%Q) by (rewrite <- Hd; apply Hnn).
    assert (Hne : ~ (m == 0)%Q).
    { rewrite <- Hd. intros E. apply Hzero in E. unfold distance_to in *.
      rewrite (Hout row Hin) in E. discriminate. }
    assert (Hpos : (0 < m)%Q).
    { apply Qle_lteq in Hge as [Hlt|E]; [exact Hlt|]. symmetry in E. contradiction. }
    apply Qlt_shift_div_l; [reflexivity | lra].
Qed.

(** C10. Every result of [calcul_proximite_qpv] is consistent:
    [qpv_plus_proche] is there, its [distance_km] is the [distance_km] of
    the result, and [est_dans_qpv] is true exactly when
    [qpv_dans_lesquels] has an entry. There is such a result for every
    point and every layer with rows. *)
Theorem proximity_result_consistent :
  forall (pt : option Point) (gdf : GeoDataFrame),
    (forall r, calcul_proximite_qpv pt gdf = Some r -> consistent r) /\
    (forall p, pt = Some p -> gdf_empty gdf = false ->
       exists r, calcul_proximite_qpv pt gdf = Some r /\ consistent r).
Proof.
  assert (Hcons : forall pt gdf r,
             calcul_proximite_qpv pt gdf = Some r -> consistent r).
  { intros pt gdf r Hr.
    destruct pt as [p|]; [|discriminate].
    destruct gdf as [|crs rows]; [discriminate|].
    destruct rows as [|row0 others] eqn:Erows; [discriminate|].
    assert (Hrows : rows <> []) by (rewrite Erows; discriminate).
    rewrite <- Erows in Hr.
    destruct (calcul_proximite_qpv_fields p crs rows Hrows)
      as (r' & m & row & Hr' & Hest & Hlist & _ & _ & _ & _ & _ & Hnear).
    rewrite Hr in Hr'. injection Hr' as <-. split.
    - eexists. split; [exact Hnear | reflexivity].
    - rewrite Hest, Hlist, negb_is_nil_true.
      destruct (containing _ rows); simpl; split; congruence. }
  intros pt gdf. split; [apply Hcons|].
  intros p -> Hempty.
  destruct gdf as [|crs [|row0 others]]; try (cbv in Hempty; discriminate).
  destruct (calcul_proximite_qpv (Some p) (Frame crs (row0 :: others)))
    as [r|] eqn:E; [|discriminate E].
  exists r. split; [reflexivity | exact (Hcons _ _ _ E)].
Qed.

(** ** [load_qpv_polygones] *)



End QpvFacts.

(** ** The plane of strips obeys the laws, and the examples on it *)

Lemma Qle_bool_false x y : Qle_bool x y = false <-> (y < x)%Q.
Proof.
  rewrite <- not_true_iff_false, Qle_bool_iff. split; [apply Qnot_le_lt | apply Qlt_not_le].
Qed.

Lemma strips_laws : @planar_laws Strips.strips.
Proof.
  split; intros [lo hi] [x y]; simpl;
    unfold Strips.strip_distance, Strips.strip_covers, Strips.strip_contains,
      Strips.Qltb; simpl.
  - destruct (Qle_bool lo y) eqn:E1; simpl.
    + destruct (Qle_bool y hi) eqn:E2; simpl; [apply Qle_refl|].
      apply Qle_bool_false in E2. lra.
    + apply Qle_bool_false in E1. lra.
  - destruct (Qle_bool lo y) eqn:E1; simpl.
    + destruct (Qle_bool y hi) eqn:E2; simpl; [split; reflexivity|].
      apply Qle_bool_false in E2. split; [intros E; lra | discriminate].
    + apply Qle_bool_false in E1. split; [intros E; lra | discriminate].
  - rewrite !andb_true_iff, !negb_true_iff, !Qle_bool_false, !Qle_bool_iff.
    intros [? ?]. split; apply Qlt_le_weak; assumption.
Qed.

(** A point in QP1: the first scenario of the specification. *)
Lemma calcul_proximite_qpv_none_iff_witness :
  gdf_empty Strips.layer = false /\
  exists r, calcul_proximite_qpv (Some Strips.pt_inside) Strips.layer = Some r.
Proof.
  split; [reflexivity|].
  apply (proj2 (proj2 (proj2
           (calcul_proximite_qpv_none_iff (Some Strips.pt_inside) Strips.layer)))
           Strips.pt_inside); reflexivity.
Defined.

(** A point 1000 m from QP1: the flag is true at exactly one kilometre. *)
Lemma a_moins_1km_qpv_iff_witness :
  [Strips.qp1; Strips.qp2] <> [] /\
  exists r,
    calcul_proximite_qpv (Some Strips.pt_at_1km) Strips.layer = Some r /\
    (distance_km r == 1)%Q /\ a_moins_1km_qpv r = true.
Proof.
  split; [discriminate|].
  destruct (a_moins_1km_qpv_iff Strips.pt_at_1km (EPSG LAMBERT93)
              [Strips.qp1; Strips.qp2]) as (r & Hr & _ & Hone); [discriminate|].
  exists r. split; [exact Hr|].
  assert (E : (distance_km r == 1)%Q).
  { change (calcul_proximite_qpv (Some Strips.pt_at_1km) Strips.layer = Some r) in Hr.
    vm_compute in Hr. injection Hr as <-. reflexivity. }
  split; [exact E | exact (Hone E)].
Defined.

Lemma est_dans_qpv_iff_witness :
  [Strips.qp1; Strips.qp2] <> [] /\
  exists r,
    calcul_proximite_qpv (Some Strips.pt_inside) Strips.layer = Some r /\
    est_dans_qpv r = true /\
    Forall2 names_row [Strips.qp1] (qpv_dans_lesquels r).
Proof.
  split; [discriminate|].
  destruct (est_dans_qpv_iff Strips.pt_inside (EPSG LAMBERT93)
              [Strips.qp1; Strips.qp2]) as (r & Hr & Hest & Hlist); [discriminate|].
  exists r. split; [exact Hr|]. split.
  - apply Hest. exists Strips.qp1. split; [now left | reflexivity].
  - exact Hlist.
Defined.

Lemma distance_km_least_witness :
  [Strips.qp1; Strips.qp2] <> [] /\
  exists r,
    calcul_proximite_qpv (Some Strips.pt_inside) Strips.layer = Some r /\
    est_dans_qpv r = true /\ (distance_km r == 0)%Q.
Proof.
  split; [discriminate|].
  destruct (distance_km_least Strips.pt_inside (EPSG LAMBERT93)
              [Strips.qp1; Strips.qp2]) as (r & m & Hr & _ & _ & _ & Hin); [discriminate|].
  exists r. split; [exact Hr|].
  apply (Hin strips_laws Strips.qp1); [now left | reflexivity].
Defined.

Lemma outside_every_polygon_witness :
  exists r m,
    calcul_proximite_qpv (Some Strips.pt_at_1km) Strips.layer = Some r /\
    est_dans_qpv r = false /\
    (0 < distance_km r)%Q /\
    least_distance Strips.pt_at_1km [Strips.qp1; Strips.qp2] m /\
    distance_km r = (m / 1000)%Q.
Proof.
  apply (outside_every_polygon Strips.pt_at_1km (EPSG LAMBERT93)
           [Strips.qp1; Strips.qp2] strips_laws).
  - discriminate.
  - intros row [<-|[<-|[]]]; reflexivity.
Defined.

Lemma proximity_result_consistent_witness :
  gdf_empty Strips.layer = false /\
  exists r,
    calcul_proximite_qpv (Some Strips.pt_inside) Strips.layer = Some r /\ consistent r.
Proof.
  split; [reflexivity|].
  apply (proj2 (proximity_result_consistent (Some Strips.pt_inside) Strips.layer)
           Strips.pt_inside); reflexivity.
Defined.


Example load_naive_file :
  load_qpv_polygones (Some naive_file) = Raise (ValueError "Le fichier QPV n'a pas de CRS.").
Proof. reflexivity. Qed.

(** A point on the edge of QP1 is in no interior and at distance zero: it
    is neither inside nor outside. *)
Example edge_point :
  (fun r => (est_dans_qpv r, distance_km r, a_moins_1km_qpv r))
    <$> calcul_proximite_qpv (Some Strips.pt_edge) Strips.layer
  = Some (false, (0 # 1000)%Q, true).
Proof. vm_compute. reflexivity. Qed.

(** A file with fewer than six lines has no header line. *)
Example load_zrr_short_file :
  load_zrr_data csv_table (Some (take 5 zrr_file)) = Raise ParserError.
Proof. reflexivity. Qed.

(** * Further properties of the data functions *)

(** ** Normal forms of codes *)

Lemma zfill_long w s : w <= String.length s -> zfill w s = s.
Proof.
  intros Hlen. unfold zfill.
  replace (w - String.length s) with 0 by lia. reflexivity.
Qed.

Lemma zfill_idempotent w s : zfill w (zfill w s) = zfill w s.
Proof. apply zfill_long. rewrite zfill_length. lia. Qed.

Lemma truthy_zfill s : truthy (VStr (zfill CODE_WIDTH s)) = true.
Proof.
  apply truthy_str_nonempty. intros E.
  pose proof (zfill_length CODE_WIDTH s) as Hlen. rewrite E in Hlen.
  unfold CODE_WIDTH in Hlen. simpl in Hlen. lia.
Qed.

(** [check_zrr_statut] does not tell a code from its normal form: on every
    value Python takes for true, the answer is the answer on the string
    [zfill 5] makes of it. *)
Theorem check_zrr_statut_normal_form :
  forall (v : Value) (df : list ZrrRow) (communes : gset string),
    truthy v = true ->
    check_zrr_statut (Some v) df communes
    = check_zrr_statut (Some (VStr (zfill 5 (py_str v)))) df communes.
Proof.
  intros v df communes Hv.
  rewrite (check_zrr_statut_truthy v) by assumption.
  rewrite (check_zrr_statut_truthy (VStr _)) by apply truthy_zfill.
  cbv zeta. simpl py_str. unfold CODE_WIDTH. now rewrite zfill_idempotent.
Qed.

Lemma check_zrr_statut_normal_form_witness :
  truthy (VInt 1234) = true /\
  check_zrr_statut (Some (VInt 1234)) zrr_table {[ "01234" ]}
  = check_zrr_statut (Some (VStr "01234")) zrr_table {[ "01234" ]}.
Proof.
  split; [reflexivity|].
  apply (check_zrr_statut_normal_form (VInt 1234) zrr_table {[ "01234" ]}).
  reflexivity.
Defined.

(** ** The table and the set [load_zrr_data] returns *)

Lemma load_zrr_data_Ok parse_table file df communes :
  load_zrr_data parse_table file = Ok (df, communes) ->
  exists raw,
    df = map normalize_codgeo raw /\
    communes = list_to_set (codgeo_list (List.filter zrr_flagged df)).
Proof.
  unfold load_zrr_data. destruct file as [lines|].
  - destruct (read_csv parse_table ZRR_HEADER lines) as [table|e]; [|discriminate].
    destruct (has_CODGEO table); [|discriminate]. simpl negb. cbv iota.
    destruct (zone_column table); try discriminate.
    intros [= <- <-]. exists (table_rows table). split; reflexivity.
  - intros [= <- <-]. exists []. split; reflexivity.
Qed.

(** What [load_zrr_data] returns is in normal form: every code of the table
    is missing or a string that [zfill 5] leaves as it is, at least five
    characters long; every string of the set is such a string, and the code
    of a row of the table whose classification starts with C or P. *)
Theorem load_zrr_data_normal :
  forall parse_table file df communes,
    load_zrr_data parse_table file = Ok (df, communes) ->
    (forall r, In r df ->
       CODGEO r = VNaN \/
       exists s, CODGEO r = VStr s /\ zfill 5 s = s /\ 5 <= String.length s) /\
    (forall code, code ∈ communes ->
       zfill 5 code = code /\ 5 <= String.length code /\
       exists r z, In r df /\ CODGEO r = VStr code /\
                   ZRR_SIMP r = VStr z /\ marked z).
Proof.
  intros parse_table file df communes Hload.
  apply load_zrr_data_Ok in Hload as (raw & -> & ->).
  assert (Hrows : forall r, In r (map normalize_codgeo raw) ->
            CODGEO r = VNaN \/
            exists s, CODGEO r = VStr s /\ zfill 5 s = s /\ 5 <= String.length s).
  { intros r Hr. apply in_map_iff in Hr as (r0 & <- & _).
    unfold normalize_codgeo. simpl.
    destruct (CODGEO r0); [right|right|right|now left];
      (eexists; split; [reflexivity|]); unfold CODE_WIDTH;
      (split; [apply zfill_idempotent | rewrite zfill_length; lia]). }
  split; [exact Hrows|].
  intros code Hcode. apply load_zrr_data_members in Hcode as (r & z & Hin & Hc & Hz & Hm).
  destruct (Hrows r Hin) as [E|(s & Hs & Hfix & Hlen)]; [congruence|].
  assert (s = code) as -> by congruence.
  split; [exact Hfix|]. split; [exact Hlen|]. exists r, z. auto.
Qed.

Lemma load_zrr_data_normal_witness :
  exists df communes,
    load_zrr_data csv_table (Some zrr_file) = Ok (df, communes) /\
    (forall code, code ∈ communes ->
       zfill 5 code = code /\ 5 <= String.length code /\
       exists r z, In r df /\ CODGEO r = VStr code /\
                   ZRR_SIMP r = VStr z /\ marked z).
Proof.
  eexists _, _. split; [vm_compute; reflexivity|].
  apply (load_zrr_data_normal csv_table (Some zrr_file)). vm_compute. reflexivity.
Defined.

(** On the table and the set of one load, [check_zrr_statut] answers
    [True] exactly for the codes whose normal form is the code of a row
    classified C or P, and the name it gives then is the [LIBGEO] of the
    first row with that code: the case of a member with no row does not
    arise. *)
Theorem check_zrr_statut_loaded :
  forall parse_table file df communes (v : Value),
    load_zrr_data parse_table file = Ok (df, communes) ->
    truthy v = true ->
    let code := zfill 5 (py_str v) in
    exists member label,
      check_zrr_statut (Some v) df communes = (Some member, label) /\
      (member = true <->
         exists r, In r df /\ CODGEO r = VStr code /\ zrr_flagged r = true) /\
      (member = true ->
         exists pre r post,
           df = pre ++ r :: post /\
           (forall r', In r' pre -> CODGEO r' <> VStr code) /\
           CODGEO r = VStr code /\ label = LIBGEO r) /\
      (member = false -> label = None).
Proof.
  intros parse_table file df communes v Hload Hv code.
  apply load_zrr_data_Ok in Hload as (raw & Hdf & Hcommunes).
  rewrite (check_zrr_statut_truthy v) by assumption. cbv zeta. fold code.
  unfold CODE_WIDTH. fold code.
  assert (Hmem : code ∈ communes <->
            exists r, In r df /\ CODGEO r = VStr code /\ zrr_flagged r = true).
  { rewrite Hcommunes, load_zrr_data_members. split.
    - intros (r & z & Hr & Hcode & Hz & Hm). exists r. repeat split; try assumption.
      unfold zrr_flagged. rewrite Hz. now apply startswith_C_or_P_marked.
    - intros (r & Hr & Hcode & Hflag). unfold zrr_flagged in Hflag.
      destruct (ZRR_SIMP r) as [z| | |] eqn:Hz; try discriminate.
      exists r, z. repeat split; try assumption. now apply startswith_C_or_P_marked. }
  destruct (decide (code ∈ communes)) as [Hin|Hnot].
  - rewrite bool_decide_eq_true_2 by assumption.
    eexists true, _. split; [reflexivity|]. split; [|split].
    + split; [intros _; now apply Hmem | reflexivity].
    + intros _.
      pose proof (filter_first (codgeo_is code) df) as Hf.
      destruct (List.filter (codgeo_is code) df) as [|r rs].
      * destruct (proj1 Hmem Hin) as (r & Hr & Hcode & _).
        apply codgeo_is_true in Hcode. rewrite (Hf r Hr) in Hcode. discriminate.
      * destruct Hf as (pre & post & -> & Hpre & Hr).
        exists pre, r, post. repeat split.
        -- intros r' Hr'. apply codgeo_is_false. auto.
        -- now apply codgeo_is_true.
    + discriminate.
  - rewrite bool_decide_eq_false_2 by assumption.
    exists false, None. split; [reflexivity|]. split; [|split].
    + split; [discriminate | intros Hex; apply Hmem in Hex; contradiction].
    + discriminate.
    + reflexivity.
Qed.

Lemma check_zrr_statut_loaded_witness :
  exists member label,
    check_zrr_statut (Some (VStr "1234")) zrr_table {[ "01234" ]} = (Some member, label) /\
    (member = true ->
       exists pre r post,
         zrr_table = pre ++ r :: post /\
         (forall r', In r' pre -> CODGEO r' <> VStr "01234") /\
         CODGEO r = VStr "01234" /\ label = LIBGEO r).
Proof.
  destruct (check_zrr_statut_loaded csv_table (Some zrr_file) zrr_table {[ "01234" ]}
              (VStr "1234")) as (member & label & Hc & _ & Hrow & _).
  - reflexivity.
  - reflexivity.
  - exists member, label. split; [exact Hc | exact Hrow].
Defined.

(** With no listing on disk nothing is a member: every code Python takes
    for true gets the definite answer [(False, None)], not the indeterminate
    one. *)
Theorem check_zrr_statut_no_file :
  forall parse_table (v : Value),
    truthy v = true ->
    exists df communes,
      load_zrr_data parse_table None = Ok (df, communes) /\
      check_zrr_statut (Some v) df communes = (Some false, None).
Proof.
  intros parse_table v Hv. exists [], ∅. split; [reflexivity|].
  rewrite check_zrr_statut_truthy by assumption. cbv zeta.
  rewrite bool_decide_eq_false_2; [reflexivity|]. apply not_elem_of_empty.
Qed.

Lemma check_zrr_statut_no_file_witness :
  exists df communes,
    load_zrr_data csv_table None = Ok (df, communes) /\
    check_zrr_statut (Some (VStr "75056")) df communes = (Some false, None).
Proof.
  apply (check_zrr_statut_no_file csv_table (VStr "75056")). reflexivity.
Defined.

(** ** The least distance and the row that is reported *)

(** Every position before [idxmin] holds a value above the least one. *)
Lemma idxmin_from_first ds : forall (pre : list Q) best m,
  pre !! best = Some m ->
  (forall j x, pre !! j = Some x -> (m <= x)%Q) ->
  (forall j x, j < best -> pre !! j = Some x -> (m < x)%Q) ->
  forall j x,
    j < idxmin_from (length pre) best m ds ->
    (pre ++ ds) !! j = Some x -> (series_min m ds < x)%Q.
Proof.
  induction ds as [|d ds IH]; intros pre best m Hbest Hle Hlt j x; simpl.
  - rewrite app_nil_r. apply Hlt.
  - unfold series_min. simpl.
    replace (pre ++ d :: ds) with ((pre ++ [d]) ++ ds)
      by (rewrite <- app_assoc; reflexivity).
    replace (S (length pre)) with (length (pre ++ [d]))
      by (rewrite length_app; simpl; lia).
    destruct (Qmin_cases m d) as [[Hc E]|[Hc E]]; rewrite E.
    + rewrite Hc. apply Qgt_alt in Hc. apply IH.
      * rewrite lookup_app_r by lia. now rewrite Nat.sub_diag.
      * intros k y Hk. destruct (decide (k < length pre)) as [Hin|Hout].
        -- rewrite lookup_app_l in Hk by assumption.
           apply Qlt_le_weak. eapply Qlt_le_trans; [exact Hc | eapply Hle; exact Hk].
        -- rewrite lookup_app_r in Hk by lia.
           destruct (k - length pre) as [|k']; simpl in Hk; [|discriminate].
           injection Hk as <-. apply Qle_refl.
      * intros k y Hklt Hk. rewrite lookup_app_l in Hk by assumption.
        eapply Qlt_le_trans; [exact Hc | eapply Hle; exact Hk].
    + assert (Hmd : (m <= d)%Q) by now apply Qle_alt.
      assert (Hb : best < length pre) by now apply lookup_lt_Some in Hbest.
      destruct (m ?= d)%Q; try congruence; apply IH.
      all: try (rewrite lookup_app_l; [exact Hbest | exact Hb]).
      all: try (intros k y Hk; destruct (decide (k < length pre)) as [Hin|Hout];
                [ rewrite lookup_app_l in Hk by assumption; eapply Hle; exact Hk
                | rewrite lookup_app_r in Hk by lia;
                  destruct (k - length pre) as [|k']; simpl in Hk; [|discriminate];
                  injection Hk as <-; exact Hmd ]).
      all: intros k y Hklt Hk; rewrite lookup_app_l in Hk by lia;
           eapply Hlt; [exact Hklt | exact Hk].
Qed.

Lemma idxmin_first d ds j x :
  j < idxmin d ds -> (d :: ds) !! j = Some x -> (series_min d ds < x)%Q.
Proof.
  apply (idxmin_from_first ds [d] 0 d).
  - reflexivity.
  - intros [|k] y; simpl; [intros [= <-]; apply Qle_refl | discriminate].
  - intros k y Hk. lia.
Qed.

Section QpvMore.

Context `{Planar}.

(** The flag [a_moins_1km_qpv] is true exactly when some row of the layer
    is at 1000 m or less from the projected point. *)
Theorem a_moins_1km_qpv_some_row :
  forall (pt : Point) (crs : CRS) (rows : list QpvRow),
    rows <> [] ->
    let p := point_to_crs WGS84 crs pt in
    exists r,
      calcul_proximite_qpv (Some pt) (Frame crs rows) = Some r /\
      (a_moins_1km_qpv r = true <->
         exists row, In row rows /\ (distance (geometry row) p <= 1000)%Q).
Proof.
  intros pt crs rows Hrows p.
  destruct (calcul_proximite_qpv_fields pt crs rows Hrows)
    as (r & m & row & Hr & _ & _ & Hleast & Hkm & Hflag & Hin & Hd & _).
  fold p in Hleast, Hd.
  exists r. split; [exact Hr|]. rewrite Hflag, Hkm, Qle_bool_iff. split.
  - intros Hle. exists row. split; [exact Hin|]. rewrite Hd.
    assert (E : (m == m / 1000 * 1000)%Q) by (field; discriminate).
    rewrite E. lra.
  - intros (row' & Hrow' & Hle).
    apply Qle_shift_div_r; [reflexivity|].
    eapply Qle_trans; [apply (proj2 Hleast row' Hrow') | lra].
Qed.

(** Plane geometry granted, [distance_km] is never negative, and a point in
    a district is within the kilometre: [est_dans_qpv] true gives
    [a_moins_1km_qpv] true. *)
Theorem est_dans_qpv_a_moins_1km :
  forall (pt : Point) (crs : CRS) (rows : list QpvRow),
    planar_laws ->
    rows <> [] ->
    exists r,
      calcul_proximite_qpv (Some pt) (Frame crs rows) = Some r /\
      (0 <= distance_km r)%Q /\
      (est_dans_qpv r = true -> a_moins_1km_qpv r = true /\ (distance_km r == 0)%Q).
Proof.
  intros pt crs rows [Hnn Hzero Hcc] Hrows.
  destruct (calcul_proximite_qpv_fields pt crs rows Hrows)
    as (r & m & row & Hr & Hest & _ & Hleast & Hkm & Hflag & Hin & Hd & _).
  set (p := point_to_crs WGS84 crs pt) in *.
  assert (Hge : (0 <= m)%Q) by (rewrite <- Hd; apply Hnn).
  exists r. split; [exact Hr|]. split.
  - rewrite Hkm. apply Qle_shift_div_l; [reflexivity | lra].
  - rewrite Hest, negb_is_nil_true. intros Hne.
    destruct (containing p rows) as [|row' l] eqn:E; [congruence|].
    assert (Hrow' : In row' (containing p rows)) by (rewrite E; now left).
    apply containing_In in Hrow' as [Hrow' Hc].
    assert (Hle : (m <= 0)%Q).
    { rewrite <- (proj2 (Hzero (geometry row') p) (Hcc _ _ Hc)).
      apply (proj2 Hleast row' Hrow'). }
    assert (E0 : (m == 0)%Q) by lra.
    assert (Ekm : (distance_km r == 0)%Q) by (rewrite Hkm, E0; reflexivity).
    split; [|exact Ekm].
    rewrite Hflag. apply Qle_bool_iff. rewrite Ekm. discriminate.
Qed.

(** When several rows are at the least distance, [qpv_plus_proche] is the
    first of them in the order of the layer: every row before it is
    farther. *)
Theorem qpv_plus_proche_first :
  forall (pt : Point) (crs : CRS) (rows : list QpvRow),
    rows <> [] ->
    let p := point_to_crs WGS84 crs pt in
    exists r before row after,
      calcul_proximite_qpv (Some pt) (Frame crs rows) = Some r /\
      rows = before ++ row :: after /\
      (forall row', In row' rows -> (distance (geometry row) p <= distance (geometry row') p)%Q) /\
      (forall row', In row' before -> (distance (geometry row) p < distance (geometry row') p)%Q) /\
      qpv_plus_proche r =
        Some {| near_code_qp := code_qp row;
                near_lib_qp := lib_qp row;
                near_commune_qp := lib_com row;
                near_distance_km := (distance (geometry row) p / 1000)%Q |}.
Proof.
  intros pt crs rows Hrows p. destruct rows as [|row0 others]; [congruence|].
  set (d0 := distance_to p row0). set (ds := map (distance_to p) others).
  set (idx := idxmin d0 ds).
  pose proof (idxmin_lookup d0 ds) as Hl. fold idx in Hl.
  change (d0 :: ds) with (distance_to p <$> (row0 :: others)) in Hl.
  rewrite list_lookup_fmap in Hl.
  destruct ((row0 :: others) !! idx) as [row|] eqn:Hrow; [|discriminate].
  injection Hl as Hd.
  eexists _, (take idx (row0 :: others)), row, (drop (S idx) (row0 :: others)).
  split; [reflexivity|]. split; [|split; [|split]].
  - symmetry. now apply take_drop_middle.
  - intros row' Hrow'. change (distance (geometry row) p) with (distance_to p row).
    rewrite Hd.
    apply (proj2 (least_distance_series_min p row0 others) row' Hrow').
  - intros row' Hrow'. change (distance (geometry row) p) with (distance_to p row).
    rewrite Hd.
    apply list_elem_of_In, list_elem_of_lookup in Hrow' as [j Hj].
    assert (Hjlt : j < idx).
    { apply lookup_lt_Some in Hj. rewrite length_take in Hj. lia. }
    rewrite lookup_take_lt in Hj by assumption.
    apply (idxmin_first d0 ds j); [exact Hjlt|].
    change (d0 :: ds) with (distance_to p <$> (row0 :: others)).
    rewrite list_lookup_fmap, Hj. reflexivity.
  - cbn [qpv_plus_proche]. fold p. fold d0 ds idx.
    rewrite (nth_lookup_Some _ _ row0 _ Hrow).
    change (distance (geometry row) p) with (distance_to p row).
    rewrite Hd. reflexivity.
Qed.

End QpvMore.

(** ** The order of the rows *)

Lemma filter_Permutation_bool {A : Type} (f : A -> bool) (l l' : list A) :
  l ≡ₚ l' -> List.filter f l ≡ₚ List.filter f l'.
Proof.
  induction 1 as [|x l l' _ IH|x y l|l l' l'' _ IH1 _ IH2]; simpl.
  - constructor.
  - destruct (f x); [now constructor | exact IH].
  - destruct (f x), (f y); try reflexivity. constructor.
  - now transitivity (List.filter f l').
Qed.

Section QpvOrder.

Context `{Planar}.

Lemma least_distance_unique pt rows rows' m m' :
  rows ≡ₚ rows' ->
  least_distance pt rows m -> least_distance pt rows' m' -> (m == m')%Q.
Proof.
  intros Hp [(row & Hrow & Hd) Hle] [(row' & Hrow' & Hd') Hle'].
  apply Qle_antisym.
  - rewrite <- Hd'. apply Hle. eapply Permutation_in; [symmetry; exact Hp | exact Hrow'].
  - rewrite <- Hd. apply Hle'. eapply Permutation_in; [exact Hp | exact Hrow].
Qed.

(** The order of the rows of the layer does not change the answer: on the
    same rows in another order, [est_dans_qpv] and [a_moins_1km_qpv] are the
    same, [distance_km] is the same number, and [qpv_dans_lesquels] lists the
    same districts. *)
Theorem calcul_proximite_qpv_order :
  forall (pt : Point) (crs : CRS) (rows rows' : list QpvRow),
    rows ≡ₚ rows' ->
    rows <> [] ->
    exists r r',
      calcul_proximite_qpv (Some pt) (Frame crs rows) = Some r /\
      calcul_proximite_qpv (Some pt) (Frame crs rows') = Some r' /\
      est_dans_qpv r = est_dans_qpv r' /\
      (distance_km r == distance_km r')%Q /\
      a_moins_1km_qpv r = a_moins_1km_qpv r' /\
      qpv_dans_lesquels r ≡ₚ qpv_dans_lesquels r'.
Proof.
  intros pt crs rows rows' Hp Hrows.
  assert (Hrows' : rows' <> []).
  { intros ->. apply Permutation_nil_r in Hp. contradiction. }
  destruct (calcul_proximite_qpv_fields pt crs rows Hrows)
    as (r & m & row & Hr & Hest & Hlist & Hleast & Hkm & Hflag & _).
  destruct (calcul_proximite_qpv_fields pt crs rows' Hrows')
    as (r' & m' & row' & Hr' & Hest' & Hlist' & Hleast' & Hkm' & Hflag' & _).
  set (p := point_to_crs WGS84 crs pt) in *.
  assert (Hin : containing p rows ≡ₚ containing p rows')
    by now apply filter_Permutation_bool.
  assert (Ekm : (distance_km r == distance_km r')%Q).
  { rewrite Hkm, Hkm', (least_distance_unique p rows rows' m m' Hp Hleast Hleast').
    reflexivity. }
  exists r, r'. split; [exact Hr|]. split; [exact Hr'|]. split; [|split; [|split]].
  - rewrite Hest, Hest'. f_equal.
    destruct (containing p rows) as [|a l], (containing p rows') as [|a' l'];
      try reflexivity.
    + apply Permutation_nil_l in Hin. discriminate.
    + apply Permutation_nil_r in Hin. discriminate.
  - exact Ekm.
  - rewrite Hflag, Hflag'. now apply Qleb_comp.
  - rewrite Hlist, Hlist'. now apply Permutation_map.
Qed.

End QpvOrder.

Lemma a_moins_1km_qpv_some_row_witness :
  exists r,
    calcul_proximite_qpv (Some Strips.pt_at_1km) Strips.layer = Some r /\
    (a_moins_1km_qpv r = true <->
       exists row, In row [Strips.qp1; Strips.qp2] /\
                   (distance (geometry row) Strips.pt_at_1km <= 1000)%Q).
Proof.
  apply (a_moins_1km_qpv_some_row Strips.pt_at_1km (EPSG LAMBERT93)
           [Strips.qp1; Strips.qp2]).
  discriminate.
Defined.

Lemma est_dans_qpv_a_moins_1km_witness :
  exists r,
    calcul_proximite_qpv (Some Strips.pt_inside) Strips.layer = Some r /\
    (0 <= distance_km r)%Q /\
    (est_dans_qpv r = true -> a_moins_1km_qpv r = true /\ (distance_km r == 0)%Q).
Proof.
  apply (est_dans_qpv_a_moins_1km Strips.pt_inside (EPSG LAMBERT93)
           [Strips.qp1; Strips.qp2] strips_laws).
  discriminate.
Defined.

(** Two districts at the same distance: the first of the layer is named. *)
Lemma qpv_plus_proche_first_witness :
  exists r before row after,
    calcul_proximite_qpv (Some Strips.pt_at_1km)
      (Frame (EPSG LAMBERT93) [Strips.qp2; Strips.qp1; Strips.qp1]) = Some r /\
    [Strips.qp2; Strips.qp1; Strips.qp1] = before ++ row :: after /\
    (forall row', In row' [Strips.qp2; Strips.qp1; Strips.qp1] ->
       (distance (geometry row) Strips.pt_at_1km
        <= distance (geometry row') Strips.pt_at_1km)%Q) /\
    (forall row', In row' before ->
       (distance (geometry row) Strips.pt_at_1km
        < distance (geometry row') Strips.pt_at_1km)%Q) /\
    qpv_plus_proche r =
      Some {| near_code_qp := code_qp row;
              near_lib_qp := lib_qp row;
              near_commune_qp := lib_com row;
              near_distance_km := (distance (geometry row) Strips.pt_at_1km / 1000)%Q |}.
Proof.
  apply (qpv_plus_proche_first Strips.pt_at_1km (EPSG LAMBERT93)
           [Strips.qp2; Strips.qp1; Strips.qp1]).
  discriminate.
Defined.

Lemma calcul_proximite_qpv_order_witness :
  exists r r',
    calcul_proximite_qpv (Some Strips.pt_inside) Strips.layer = Some r /\
    calcul_proximite_qpv (Some Strips.pt_inside)
      (Frame (EPSG LAMBERT93) [Strips.qp2; Strips.qp1]) = Some r' /\
    est_dans_qpv r = est_dans_qpv r' /\
    (distance_km r == distance_km r')%Q /\
    a_moins_1km_qpv r = a_moins_1km_qpv r' /\
    qpv_dans_lesquels r ≡ₚ qpv_dans_lesquels r'.
Proof.
  apply (calcul_proximite_qpv_order Strips.pt_inside (EPSG LAMBERT93)
           [Strips.qp1; Strips.qp2] [Strips.qp2; Strips.qp1]).
  - apply perm_swap.
  - discriminate.
Defined.

Example analyse_siret_exemple :
  analyse_depuis_siret strips_point strip_spaces csv_table world_exemple "12345678900011"
  = Done {| type := "siret";
            nom_entreprise := Some "ACME";
            adresse := Some "10 RUE DE LA PAIX, 01000 COMMUNE A";
            adresse_trouvee := None;
            code_commune := Some (VStr "01234");
            in_zrr := Some true;
            zrr_label := Some (VStr "Commune A");
            qpv_data :=
              calcul_proximite_qpv (Some Strips.pt_inside)
                (Frame (EPSG LAMBERT93) [Strips.qp1]) |}.
Proof. reflexivity. Qed.

(** ** The two analyses *)

Section AnalysesFacts.

Context `{Planar}.
Variable point : Q -> Q -> Point.
Variable strip : string -> string.
Variable parse_table : string -> list string -> CsvTable.
Variable w : World.

Lemma get_sirene_etab_200 siret r :
  sirene w siret = Done r -> status_code r = 200%Z ->
  get_sirene_etab w siret = Done (json r).
Proof.
  intros Hr Hs. unfold get_sirene_etab. rewrite Hr. simpl. now rewrite Hs.
Qed.

Lemma geocode_None r_ban :
  geocode point r_ban = None <-> status_code r_ban <> 200%Z \/ json r_ban = [].
Proof.
  unfold geocode. destruct (Z.eqb_spec (status_code r_ban) 200) as [E|E].
  - destruct (json r_ban) as [|feat rest].
    + split; [now right | reflexivity].
    + split; [discriminate | intros [?|?]; congruence].
  - split; [now left | reflexivity].
Qed.

Lemma calcul_proximite_qpv_Some_point (p : Point) (gdf : GeoDataFrame) :
  calcul_proximite_qpv (Some p) gdf = None <-> gdf_empty gdf = true.
Proof.
  destruct gdf as [|crs [|row0 others]]; simpl; split; try reflexivity; discriminate.
Qed.

(** Geocoding is best effort in [analyse_depuis_siret]: once the files are
    loaded and the SIRENE service has given an establishment whose address
    is not [null], whatever response the address service gives the analysis
    returns a result. Its ZRR answer is [check_zrr_statut] on the commune
    code of the establishment; its QPV answer is [None] when the address
    service answers another status than 200 or finds nothing, and the
    computation on the point of the first candidate otherwise. *)
Theorem analyse_depuis_siret_best_effort :
  forall siret gdf df communes r etab adr r_ban,
    load_qpv_polygones (qpv_geo w) = Ok gdf ->
    load_zrr_data parse_table (zrr_csv w) = Ok (df, communes) ->
    sirene w siret = Done r ->
    status_code r = 200%Z ->
    json r = Some etab ->
    (adresseEtablissement etab = Present adr \/
     (adresseEtablissement etab = Missing /\ adr = no_adresse)) ->
    ban w (adresse_full strip adr) = Done r_ban ->
    exists res,
      analyse_depuis_siret point strip parse_table w siret = Done res /\
      code_commune res = codeCommuneEtablissement adr /\
      (in_zrr res, zrr_label res)
      = check_zrr_statut (codeCommuneEtablissement adr) df communes /\
      ((status_code r_ban <> 200%Z \/ json r_ban = []) -> qpv_data res = None) /\
      (forall feat rest,
          status_code r_ban = 200%Z -> json r_ban = feat :: rest ->
          qpv_data res
          = calcul_proximite_qpv
              (Some (point (fst (coordinates feat)) (snd (coordinates feat)))) gdf).
Proof.
  intros siret gdf df communes r etab adr r_ban Hq Hz Hr Hs Hj Hadr Hban.
  unfold analyse_depuis_siret. rewrite Hq, Hz. simpl.
  rewrite (get_sirene_etab_200 siret r Hr Hs), Hj. simpl.
  assert (Ha : match adresseEtablissement etab with
               | Missing => Done no_adresse
               | Null => Failed AttributeError
               | Present a => Done a
               end = Done adr).
  { destruct Hadr as [->|[-> ->]]; reflexivity. }
  rewrite Ha. simpl. rewrite Hban. simpl.
  eexists. split; [reflexivity|]. cbn [code_commune in_zrr zrr_label qpv_data].
  split; [reflexivity|]. split; [now destruct (check_zrr_statut _ df communes)|].
  split.
  - intros Hfail. apply geocode_None in Hfail. rewrite Hfail. reflexivity.
  - intros feat rest Hs' Hj'. unfold geocode. now rewrite Hs', Hj'.
Qed.

(** What stops [analyse_depuis_siret] at the SIRENE service, the files
    being loaded: a status other than 200 raises a [RuntimeError] that
    carries the status; a 200 with no establishment, or with an
    establishment whose address is [null], ends in [AttributeError]. The
    address service is not consulted. *)
Theorem analyse_depuis_siret_sirene_failures :
  forall siret gdf zrr r,
    load_qpv_polygones (qpv_geo w) = Ok gdf ->
    load_zrr_data parse_table (zrr_csv w) = Ok zrr ->
    sirene w siret = Done r ->
    (status_code r <> 200%Z ->
     analyse_depuis_siret point strip parse_table w siret
     = Failed (RuntimeError
                 ("Erreur API SIRENE (" +:+ py_str (VInt (status_code r)) +:+ ")"))) /\
    (status_code r = 200%Z -> json r = None ->
     analyse_depuis_siret point strip parse_table w siret = Failed AttributeError) /\
    (forall etab,
        status_code r = 200%Z -> json r = Some etab ->
        adresseEtablissement etab = Null ->
        analyse_depuis_siret point strip parse_table w siret = Failed AttributeError).
Proof.
  intros siret gdf zrr r Hq Hz Hr. split; [|split].
  - intros Hs. unfold analyse_depuis_siret, get_sirene_etab.
    rewrite Hq, Hz. simpl. rewrite Hr. simpl.
    apply Z.eqb_neq in Hs. now rewrite Hs.
  - intros Hs Hj. unfold analyse_depuis_siret. rewrite Hq, Hz. simpl.
    rewrite (get_sirene_etab_200 siret r Hr Hs), Hj. reflexivity.
  - intros etab Hs Hj Hnull. unfold analyse_depuis_siret. rewrite Hq, Hz. simpl.
    rewrite (get_sirene_etab_200 siret r Hr Hs), Hj. simpl. now rewrite Hnull.
Qed.

(** [analyse_depuis_adresse_raw], the files being loaded and the address
    service giving a response: a status other than 200 raises
    [RuntimeError], a 200 with no candidate raises the [ValueError] of the
    address not found, and a 200 with a candidate returns a result built on
    the first one. In that result the QPV answer is [None] exactly when the
    layer is empty. *)
Theorem analyse_depuis_adresse_raw_cases :
  forall adresse_saisie gdf df communes r,
    load_qpv_polygones (qpv_geo w) = Ok gdf ->
    load_zrr_data parse_table (zrr_csv w) = Ok (df, communes) ->
    ban w adresse_saisie = Done r ->
    (status_code r <> 200%Z ->
     analyse_depuis_adresse_raw point parse_table w adresse_saisie
     = Failed (RuntimeError "Erreur API Adresse")) /\
    (status_code r = 200%Z -> json r = [] ->
     analyse_depuis_adresse_raw point parse_table w adresse_saisie
     = Failed (Raised (ValueError "Adresse non trouvée."))) /\
    (forall feat rest,
        status_code r = 200%Z -> json r = feat :: rest ->
        exists res,
          analyse_depuis_adresse_raw point parse_table w adresse_saisie = Done res /\
          adresse_trouvee res = label feat /\
          code_commune res = citycode feat /\
          (in_zrr res, zrr_label res) = check_zrr_statut (citycode feat) df communes /\
          qpv_data res
          = calcul_proximite_qpv
              (Some (point (fst (coordinates feat)) (snd (coordinates feat)))) gdf /\
          (qpv_data res = None <-> gdf_empty gdf = true)).
Proof.
  intros adresse_saisie gdf df communes r Hq Hz Hr. split; [|split].
  - intros Hs. unfold analyse_depuis_adresse_raw.
    rewrite Hq, Hz. simpl. rewrite Hr. simpl.
    apply Z.eqb_neq in Hs. now rewrite Hs.
  - intros Hs Hj. unfold analyse_depuis_adresse_raw.
    rewrite Hq, Hz. simpl. rewrite Hr. simpl. now rewrite Hs, Hj.
  - intros feat rest Hs Hj. unfold analyse_depuis_adresse_raw.
    rewrite Hq, Hz. simpl. rewrite Hr. simpl. rewrite Hs, Hj. simpl.
    eexists. split; [reflexivity|].
    cbn [adresse_trouvee code_commune in_zrr zrr_label qpv_data].
    split; [reflexivity|]. split; [reflexivity|].
    split; [now destruct (check_zrr_statut _ df communes)|].
    split; [reflexivity|].
    apply calcul_proximite_qpv_Some_point.
Qed.

(** A layer file that declares no CRS stops both analyses with the
    [ValueError] of the loader, whatever the listing and whatever the two
    services would answer. *)
Theorem analyses_need_crs :
  forall rows siret adresse_saisie,
    qpv_geo w = Some {| file_crs := None; file_rows := rows |} ->
    analyse_depuis_siret point strip parse_table w siret
    = Failed (Raised (ValueError "Le fichier QPV n'a pas de CRS.")) /\
    analyse_depuis_adresse_raw point parse_table w adresse_saisie
    = Failed (Raised (ValueError "Le fichier QPV n'a pas de CRS.")).
Proof.
  intros rows siret adresse_saisie Hq.
  unfold analyse_depuis_siret, analyse_depuis_adresse_raw.
  rewrite Hq. split; reflexivity.
Qed.

End AnalysesFacts.

(** The address service is out of order: the analysis by SIRET still
    answers, with the ZRR answer and no QPV answer. *)
Lemma analyse_depuis_siret_best_effort_witness :
  exists res,
    analyse_depuis_siret strips_point strip_spaces csv_table world_ban_503 "12345678900011"
    = Done res /\
    in_zrr res = Some true /\ qpv_data res = None.
Proof.
  destruct (analyse_depuis_siret_best_effort strips_point strip_spaces csv_table
              world_ban_503 "12345678900011"
              (Frame (EPSG LAMBERT93) [Strips.qp1])
              zrr_table {[ "01234" ]}
              {| status_code := 200; json := Some etab_exemple |}
              etab_exemple
              {| numeroVoieEtablissement := Some "10";
                 typeVoieEtablissement := Some "RUE";
                 libelleVoieEtablissement := Some "DE LA PAIX";
                 codePostalEtablissement := Some "01000";
                 libelleCommuneEtablissement := Some "COMMUNE A";
                 codeCommuneEtablissement := Some (VStr "01234") |}
              {| status_code := 503; json := [] |})
    as (res & Hres & _ & Hzrr & Hnone & _); try reflexivity.
  - left. reflexivity.
  - exists res. split; [exact Hres|]. split.
    + change (in_zrr res) with (fst (in_zrr res, zrr_label res)). now rewrite Hzrr.
    + apply Hnone. left. discriminate.
Defined.

Lemma analyse_depuis_siret_sirene_failures_witness :
  analyse_depuis_siret strips_point strip_spaces csv_table world_sirene_404 "12345678900011"
  = Failed (RuntimeError "Erreur API SIRENE (404)").
Proof.
  apply (proj1 (analyse_depuis_siret_sirene_failures strips_point strip_spaces csv_table
                  world_sirene_404 "12345678900011"
                  (Frame (EPSG LAMBERT93) [Strips.qp1])
                  (zrr_table, {[ "01234" ]})
                  {| status_code := 404; json := None |}
                  eq_refl eq_refl eq_refl)).
  discriminate.
Defined.

Lemma analyse_depuis_adresse_raw_cases_witness :
  exists res,
    analyse_depuis_adresse_raw strips_point csv_table world_exemple
      "10 rue de la Paix, 01000 Commune A" = Done res /\
    code_commune res = Some (VStr "01234") /\
    (qpv_data res = None <-> gdf_empty (Frame (EPSG LAMBERT93) [Strips.qp1]) = true).
Proof.
  destruct (proj2 (proj2 (analyse_depuis_adresse_raw_cases strips_point csv_table
                            world_exemple "10 rue de la Paix, 01000 Commune A"
                            (Frame (EPSG LAMBERT93) [Strips.qp1])
                            zrr_table {[ "01234" ]}
                            {| status_code := 200; json := [feature_exemple] |}
                            eq_refl eq_refl eq_refl))
              feature_exemple [] eq_refl eq_refl)
    as (res & Hres & _ & Hcode & _ & _ & Hnone).
  exists res. split; [exact Hres|]. split; [exact Hcode | exact Hnone].
Defined.

Lemma analyses_need_crs_witness :
  analyse_depuis_siret strips_point strip_spaces csv_table world_naive "12345678900011"
  = Failed (Raised (ValueError "Le fichier QPV n'a pas de CRS.")) /\
  analyse_depuis_adresse_raw strips_point csv_table world_naive "10 rue de la Paix"
  = Failed (Raised (ValueError "Le fichier QPV n'a pas de CRS.")).
Proof.
  apply (analyses_need_crs strips_point strip_spaces csv_table world_naive
           (file_rows km_file) "12345678900011" "10 rue de la Paix").
  reflexivity.
Defined.

(** ** [siret_clean] *)

Lemma siret_clean_append isdigit a b :
  siret_clean isdigit (a +:+ b) = siret_clean isdigit a +:+ siret_clean isdigit b.
Proof.
  induction a as [|c a IH]; [reflexivity|].
  change (String c a +:+ b) with (String c (a +:+ b)). simpl.
  destruct (isdigit c); [|exact IH].
  change (String c (siret_clean isdigit a) +:+ siret_clean isdigit b)
    with (String c (siret_clean isdigit a +:+ siret_clean isdigit b)).
  now rewrite IH.
Qed.

Lemma siret_clean_every isdigit s : every isdigit (siret_clean isdigit s) = true.
Proof.
  induction s as [|c s IH]; simpl; [reflexivity|].
  destruct (isdigit c) eqn:Hc; simpl; [now rewrite Hc|exact IH].
Qed.

Lemma siret_clean_digits_only isdigit s :
  every isdigit s = true -> siret_clean isdigit s = s.
Proof.
  induction s as [|c s IH]; simpl; [reflexivity|].
  intros Hs. apply andb_true_iff in Hs as [Hc Hs]. rewrite Hc. now rewrite IH.
Qed.

Lemma siret_clean_no_digit isdigit s :
  every (fun c => negb (isdigit c)) s = true -> siret_clean isdigit s = EmptyString.
Proof.
  induction s as [|c s IH]; simpl; [reflexivity|].
  intros Hs. apply andb_true_iff in Hs as [Hc Hs].
  apply negb_true_iff in Hc. rewrite Hc. now apply IH.
Qed.

(** Cleaning a SIRET takes a separator out wherever it stands: text with
    no digit, put anywhere in the input, does not change the outcome. The
    outcome has digits only, and when the rest of the input is made of
    digits the outcome is that rest. *)
Theorem siret_clean_separator :
  forall (isdigit : ascii -> bool) (a sep b : string),
    every (fun c => negb (isdigit c)) sep = true ->
    siret_clean isdigit (a +:+ sep +:+ b) = siret_clean isdigit (a +:+ b) /\
    every isdigit (siret_clean isdigit (a +:+ sep +:+ b)) = true /\
    (every isdigit (a +:+ b) = true -> siret_clean isdigit (a +:+ sep +:+ b) = a +:+ b).
Proof.
  intros isdigit a sep b Hsep.
  assert (E : siret_clean isdigit (a +:+ sep +:+ b) = siret_clean isdigit (a +:+ b)).
  { rewrite !siret_clean_append, (siret_clean_no_digit _ sep Hsep). reflexivity. }
  split; [exact E|]. split.
  - apply siret_clean_every.
  - intros Hab. rewrite E. now apply siret_clean_digits_only.
Qed.

Lemma siret_clean_separator_witness :
  siret_clean ascii_digit ("123456789" +:+ " - " +:+ "00011") = "12345678900011".
Proof.
  apply (proj2 (proj2 (siret_clean_separator ascii_digit "123456789" " - " "00011"
                         eq_refl))).
  reflexivity.
Defined.
